(** * Hybrid envelope encryption and signatures (message_encryption.cpp)

    A shallow embedding of the message-encryption module of the wallet:
    [createEncryptedMessage], [createDecryptedMessage], [generateKeysPair],
    [matchRSAKeys], [signMessage] and [verifySignature], with the static
    helpers they call.

    Conventions of the embedding.
    - A C buffer handed over as (pointer, length) is the list of the bytes
      behind the pointer, together with the length argument as an integer
      of [Z]; pointer arithmetic [p += n] is [drop n].
    - [unsigned char] and [char] are [ascii]; [std::string] and
      [std::vector<unsigned char>] holding binary data are [list ascii];
      PEM key texts (NUL-terminated C strings) are [string].
    - [throw std::runtime_error(msg)] is the outcome [Throw (runtime_error msg)];
      forming an iterator range past the end of a vector, writing outside
      an array and reading bytes that were never written are [Undefined].
      Memory does not run out: [new] fails only for a size above
      [PTRDIFF_MAX], which no object has.
    - The OpenSSL primitives the module calls are an interface ([OpenSSL]);
      CBC chaining and block padding of the EVP layer are written out over
      the block cipher of that interface.  The world holds the state of the
      random generator and a log of calls into the library: on the
      encryption and decryption paths the calls that read a key or process
      data (creating and freeing the cipher context is left out), in
      [generateKeysPair] every call. *)

From Stdlib Require Import ZArith List Ascii String Bool Lia.
From stdpp Require Import base decidable list finite strings.

Local Open Scope Z_scope.

(** ** Bytes *)

Definition bytes := list ascii.

Definition xor_byte (a b : ascii) : ascii :=
  match a, b with
  | Ascii a0 a1 a2 a3 a4 a5 a6 a7, Ascii b0 b1 b2 b3 b4 b5 b6 b7 =>
      Ascii (xorb a0 b0) (xorb a1 b1) (xorb a2 b2) (xorb a3 b3)
            (xorb a4 b4) (xorb a5 b5) (xorb a6 b6) (xorb a7 b7)
  end.

Definition xor_bytes (a b : bytes) : bytes := zip_with xor_byte a b.

Definition bytes_eqb (a b : bytes) : bool := bool_decide (a = b).

(** Conversions between the C integer types: [int] is 32 bits, two's
    complement; [size_t] is 64 bits. *)
Definition INT_MAX : Z := 2 ^ 31 - 1.
Definition PTRDIFF_MAX : Z := 2 ^ 63 - 1.
Definition to_int (z : Z) : Z := (z + 2 ^ 31) mod 2 ^ 32 - 2 ^ 31.
Definition to_size_t (z : Z) : Z := z mod 2 ^ 64.

Definition len (b : bytes) : Z := Z.of_nat (length b).

(** ** Constants of the module *)

Definition ENCR_MARKER_SIZE : Z := 8.
Definition RSA_SIGNATURE_LENGTH : Z := 256.
Definition ENCR_MARKER : bytes := list_ascii_of_string "MESSAGE:".
Definition MSG_RECOGNIZE_TAG : bytes := list_ascii_of_string "MSG".

Definition AES_256_KEY_LENGTH : Z := 256.
Definition AES_256_KEY_LENGTH_BYTES : Z := AES_256_KEY_LENGTH / 8.
Definition AES_256_IV_LENGTH_BYTES : Z := 16.
Definition AES_BLOCK_SIZE : Z := 16.
Definition RSA_F4 : Z := 65537.

#[export] Instance ascii_finite : Finite ascii :=
  enc_finite nat_of_ascii ascii_of_nat 256
    ascii_nat_embedding nat_ascii_bounded nat_ascii_embedding.

(** ** Outcomes *)

(** [std::runtime_error] with its message, thrown by the module, and
    [std::bad_alloc], thrown by [new]. *)
Inductive exn :=
| runtime_error (what : string)
| bad_alloc.

Inductive outcome (A : Type) :=
| Ret (a : A)
| Throw (e : exn)
| Undefined.
Arguments Ret {A} a.
Arguments Throw {A} e.
Arguments Undefined {A}.

(** The OpenSSL entry points that are logged: those of the encryption and
    decryption paths first, then those of [generateKeysPair]. *)
Inductive openssl_call :=
| call_RAND_bytes
| call_EVP_EncryptInit_ex | call_EVP_EncryptUpdate | call_EVP_EncryptFinal_ex
| call_EVP_DecryptInit_ex | call_EVP_DecryptUpdate | call_EVP_DecryptFinal_ex
| call_BIO_new_mem_buf
| call_PEM_read_bio_RSA_PUBKEY | call_PEM_read_bio_RSAPrivateKey
| call_RSA_size | call_RSA_public_encrypt | call_RSA_private_decrypt
| call_RSA_generate_key_ex
| call_PEM_write_bio_PUBKEY | call_PEM_write_bio_RSAPrivateKey
| call_BN_new | call_BN_set_word | call_BN_free
| call_EVP_PKEY_new | call_EVP_PKEY_assign_RSA
| call_RSA_new | call_RSA_free
| call_BIO_s_mem | call_BIO_new | call_BIO_pending | call_BIO_read
| call_BIO_free_all.

(** ** The OpenSSL interface *)

Class OpenSSL := {
  (** state of the library's random generator *)
  rand_state : Type;
  (** [RAND_bytes(buf, num)]: [Some] of the bytes written when it returns 1 *)
  RAND_bytes : nat -> rand_state -> option bytes * rand_state;
  (** the AES-256 block transformation under an expanded key *)
  AES_encrypt : bytes -> bytes -> bytes;
  AES_decrypt : bytes -> bytes -> bytes;
  (** a parsed key, [RSA*] *)
  RSA : Type;
  (** the modulus, [rsa->n] *)
  RSA_n : RSA -> Z;
  (** the length of the modulus in bytes *)
  RSA_size : RSA -> Z;
  (** a complete and consistent private key *)
  RSA_check_key : RSA -> bool;
  (** the public half of a key *)
  RSAPublicKey_dup : RSA -> RSA;
  (** the PEM readers, [None] for a null result, and the PEM writers,
      [None] when they do not return 1 *)
  PEM_read_bio_RSA_PUBKEY : string -> option RSA;
  PEM_read_bio_RSAPrivateKey : string -> option RSA;
  PEM_write_bio_PUBKEY : RSA -> option string;
  PEM_write_bio_RSAPrivateKey : RSA -> option string;
  (** what the memory BIO holds after a writer that did not return 1 *)
  PEM_write_bio_PUBKEY_partial : RSA -> string;
  PEM_write_bio_RSAPrivateKey_partial : RSA -> string;
  (** [BIO_pending(NULL)]: 0 or -1, depending on the version of the
      library; [BIO_read] on a null BIO writes nothing *)
  BIO_pending_NULL : Z;
  (** [RSA_generate_key_ex(rsa, bits, e, NULL)] *)
  RSA_generate_key_ex : Z -> Z -> rand_state -> option RSA * rand_state;
  (** [RSA_public_encrypt(flen, from, to, rsa, RSA_PKCS1_OAEP_PADDING)]:
      [None] for -1, otherwise the bytes written, whose number is returned *)
  RSA_public_encrypt : bytes -> RSA -> rand_state -> option bytes * rand_state;
  (** [RSA_private_decrypt(flen, from, to, rsa, RSA_PKCS1_OAEP_PADDING)] *)
  RSA_private_decrypt : bytes -> RSA -> option bytes;
  (** [EVP_DigestSignInit] and [EVP_DigestVerifyInit] with SHA-256, on an
      [EVP_PKEY] to which the parsed key was assigned ([None]: the key text
      did not parse and the [EVP_PKEY] holds no key) *)
  EVP_DigestSignInit : option RSA -> Z;
  EVP_DigestVerifyInit : option RSA -> Z;
  (** the two calls of [EVP_DigestSignFinal] after [EVP_DigestSignUpdate] on
      the message: [None] when one of them returns <= 0, otherwise the
      signature written *)
  EVP_DigestSignFinal : option RSA -> bytes -> option bytes;
  (** [EVP_DigestVerifyFinal] after [EVP_DigestVerifyUpdate] on the message:
      1 for a match, 0 for a mismatch, another value for an error *)
  EVP_DigestVerifyFinal : option RSA -> bytes -> bytes -> Z
}.

(** What the module relies on from the library: the generator fills the
    buffer it is given; AES maps blocks to blocks and decryption undoes
    encryption; a generated key is a consistent key of the requested size;
    a key written as PEM reads back, the public text as the public half;
    OAEP decryption under a key undoes encryption under its public half; a
    signature made with a key has the length of the modulus and verifies
    under the public half. *)
Class OpenSSL_spec (SSL : OpenSSL) : Prop := {
  RAND_bytes_length n s b s' :
    RAND_bytes n s = (Some b, s') -> length b = n;
  AES_encrypt_length k b :
    length b = 16%nat -> length (AES_encrypt k b) = 16%nat;
  AES_decrypt_encrypt k b :
    length k = 32%nat -> length b = 16%nat ->
    AES_decrypt k (AES_encrypt k b) = b;
  RSA_generate_key_ex_ok bits e s k s' :
    RSA_generate_key_ex bits e s = (Some k, s') ->
    RSA_check_key k = true /\ RSA_size k = bits / 8;
  RSA_size_nonneg k : 0 <= RSA_size k;
  RSAPublicKey_dup_n k : RSA_n (RSAPublicKey_dup k) = RSA_n k;
  RSAPublicKey_dup_size k : RSA_size (RSAPublicKey_dup k) = RSA_size k;
  PEM_PUBKEY_read_write k :
    RSA_check_key k = true ->
    exists t, PEM_write_bio_PUBKEY k = Some t /\
              PEM_read_bio_RSA_PUBKEY t = Some (RSAPublicKey_dup k);
  PEM_RSAPrivateKey_read_write k :
    RSA_check_key k = true ->
    exists t, PEM_write_bio_RSAPrivateKey k = Some t /\
              PEM_read_bio_RSAPrivateKey t = Some k;
  RSA_private_decrypt_encrypt k d s c s' :
    RSA_check_key k = true ->
    RSA_public_encrypt d (RSAPublicKey_dup k) s = (Some c, s') ->
    RSA_private_decrypt c k = Some d;
  EVP_DigestInit_ok k :
    RSA_check_key k = true ->
    0 < EVP_DigestSignInit (Some k)
    /\ 0 < EVP_DigestVerifyInit (Some (RSAPublicKey_dup k));
  EVP_DigestSign_verify k msg :
    RSA_check_key k = true ->
    exists sig,
      EVP_DigestSignFinal (Some k) msg = Some sig /\
      len sig = RSA_size k /\
      EVP_DigestVerifyFinal (Some (RSAPublicKey_dup k)) msg sig = 1
}.

Section Model.
Context {SSL : OpenSSL}.

(** ** The world and the monad of the module's functions *)

Record world := World { rand : rand_state; calls : list openssl_call }.

Definition M (A : Type) : Type := world -> outcome A * world.

#[export] Instance M_ret : MRet M := fun A a w => (Ret a, w).

#[export] Instance M_bind : MBind M := fun A B k m w =>
  match m w with
  | (Ret a, w') => k a w'
  | (Throw e, w') => (Throw e, w')
  | (Undefined, w') => (Undefined, w')
  end.

Definition throw {A} (e : exn) : M A := fun w => (Throw e, w).
Definition undefined {A} : M A := fun w => (Undefined, w).

(** a call into the library that does not touch the random generator *)
Definition call {A} (c : openssl_call) (a : A) : M A :=
  fun w => (Ret a, World (rand w) (calls w ++ [c])).

(** a call into the library that draws from the random generator *)
Definition call_rand {A} (c : openssl_call)
    (f : rand_state -> A * rand_state) : M A :=
  fun w => let (a, s) := f (rand w) in (Ret a, World s (calls w ++ [c])).

(** ** The EVP cipher layer: AES-256-CBC with block padding

    The library's functions as the module uses them, with their result
    code, the bytes they write ([*outl] is their number) and the context
    they leave. *)

Record EVP_CIPHER_CTX := {
  ctx_key : bytes;
  ctx_iv : bytes;            (* chaining value *)
  ctx_buf : bytes;           (* partial block not yet processed *)
  ctx_final : option bytes   (* decryption: last block, held back *)
}.

Fixpoint blocks (n : nat) (d : bytes) : list bytes :=
  match n with
  | 0%nat => []
  | S n' => take 16 d :: blocks n' (drop 16 d)
  end.

Fixpoint cbc_encrypt (key iv : bytes) (bs : list bytes) : list bytes * bytes :=
  match bs with
  | [] => ([], iv)
  | b :: rest =>
      let c := AES_encrypt key (xor_bytes b iv) in
      let (cs, iv') := cbc_encrypt key c rest in (c :: cs, iv')
  end.

Fixpoint cbc_decrypt (key iv : bytes) (cs : list bytes) : list bytes * bytes :=
  match cs with
  | [] => ([], iv)
  | c :: rest =>
      let p := xor_bytes (AES_decrypt key c) iv in
      let (ps, iv') := cbc_decrypt key c rest in (p :: ps, iv')
  end.

Definition EVP_CipherInit (key iv : bytes) : Z * EVP_CIPHER_CTX :=
  (1, {| ctx_key := take 32 key; ctx_iv := take 16 iv;
         ctx_buf := []; ctx_final := None |}).

Definition EVP_EncryptInit_ex := EVP_CipherInit.
Definition EVP_DecryptInit_ex := EVP_CipherInit.

(** Encrypts the full blocks of what is buffered and handed in, and keeps
    the rest for later; writes nothing for [inl <= 0], an error when
    [inl < 0]. *)
Definition EVP_EncryptUpdate (ctx : EVP_CIPHER_CTX) (inp : bytes) (inl : Z)
    : Z * bytes * EVP_CIPHER_CTX :=
  if inl <=? 0 then ((if inl =? 0 then 1 else 0), [], ctx) else
  let d := ctx_buf ctx ++ take (Z.to_nat inl) inp in
  let n := (length d / 16)%nat in
  let (cs, iv') := cbc_encrypt (ctx_key ctx) (ctx_iv ctx) (blocks n d) in
  (1, concat cs,
   {| ctx_key := ctx_key ctx; ctx_iv := iv';
      ctx_buf := drop (16 * n) d; ctx_final := None |}).

(** Pads the buffered rest to a block with [n] bytes of value [n] and
    encrypts it. *)
Definition EVP_EncryptFinal_ex (ctx : EVP_CIPHER_CTX) : Z * bytes :=
  let n := (16 - length (ctx_buf ctx))%nat in
  let b := ctx_buf ctx ++ replicate n (ascii_of_nat n) in
  (1, AES_encrypt (ctx_key ctx) (xor_bytes b (ctx_iv ctx))).

(** Decrypts the full blocks; when the input ends on a block boundary the
    last decrypted block is held back for [EVP_DecryptFinal_ex], a block
    held back earlier being written first. *)
Definition EVP_DecryptUpdate (ctx : EVP_CIPHER_CTX) (inp : bytes) (inl : Z)
    : Z * bytes * EVP_CIPHER_CTX :=
  if inl <=? 0 then ((if inl =? 0 then 1 else 0), [], ctx) else
  let held := match ctx_final ctx with Some f => f | None => [] end in
  let d := ctx_buf ctx ++ take (Z.to_nat inl) inp in
  let n := (length d / 16)%nat in
  let (ps, iv') := cbc_decrypt (ctx_key ctx) (ctx_iv ctx) (blocks n d) in
  match drop (16 * n) d with
  | [] =>
      (1, held ++ concat (removelast ps),
       {| ctx_key := ctx_key ctx; ctx_iv := iv';
          ctx_buf := []; ctx_final := Some (List.last ps []) |})
  | rest =>
      (1, held ++ concat ps,
       {| ctx_key := ctx_key ctx; ctx_iv := iv';
          ctx_buf := rest; ctx_final := None |})
  end.

(** Fails on a partial or missing last block and on bad padding: the last
    byte [n] of the block must be between 1 and 16 and the last [n] bytes
    must all be [n]; writes the block without them. *)
Definition EVP_DecryptFinal_ex (ctx : EVP_CIPHER_CTX) : Z * bytes :=
  match ctx_buf ctx, ctx_final ctx with
  | [], Some f =>
      let n := nat_of_ascii (List.last f zero) in
      if ((n =? 0) || (16 <? n))%nat then (0, [])
      else if forallb (Ascii.eqb (ascii_of_nat n)) (drop (16 - n) f)
           then (1, take (16 - n) f)
           else (0, [])
  | _, _ => (0, [])
  end.

(** ** Encryption *)

Definition generateRandomKey : M bytes :=
  result ← call_rand call_RAND_bytes
             (RAND_bytes (Z.to_nat AES_256_KEY_LENGTH_BYTES));
  match result with
  | Some key => mret key
  | None =>
      throw (runtime_error "Could not create random key for message encryption")
  end.

Definition generateRandomIv : M bytes :=
  result ← call_rand call_RAND_bytes
             (RAND_bytes (Z.to_nat AES_256_IV_LENGTH_BYTES));
  match result with
  | Some iv => mret iv
  | None =>
      throw (runtime_error "Could not create random iv for message encryption")
  end.

(** Returns the output buffer and its size.  [dataLength] and
    [encryptedSize] are [size_t]; [EVP_EncryptUpdate] takes the length as an
    [int]; [len] and [totalLength] are [int], and the sum in
    [totalLength += len] wraps around at 2^31 (two's complement, what the
    compiled code does when the sum leaves the range of [int]);
    [totalLength != encryptedSize] compares the two as [size_t]. *)
Definition encryptWithAES (data : bytes) (dataLength : Z) (key iv : bytes)
    : M (bytes * Z) :=
  '(r0, ctx) ← call call_EVP_EncryptInit_ex (EVP_EncryptInit_ex key iv);
  if negb (r0 =? 1) then throw (runtime_error "Failed to encrypt data") else
  let encryptedSize :=
    to_size_t (dataLength + AES_BLOCK_SIZE - dataLength mod AES_BLOCK_SIZE) in
  (* new unsigned char[encryptedSize] *)
  if PTRDIFF_MAX <? encryptedSize then throw bad_alloc else
  '(r1, out1, ctx1) ← call call_EVP_EncryptUpdate
                        (EVP_EncryptUpdate ctx data (to_int dataLength));
  if negb (r1 =? 1) then throw (runtime_error "Failed to encrypt data") else
  let totalLength := to_int (len out1) in
  '(r2, out2) ← call call_EVP_EncryptFinal_ex (EVP_EncryptFinal_ex ctx1);
  if negb (r2 =? 1) then throw (runtime_error "Failed to encrypt data") else
  let totalLength := to_int (totalLength + len out2) in
  if negb (to_size_t totalLength =? encryptedSize)
  then throw (runtime_error "Failed to encrypt data")
  else mret (out1 ++ out2, encryptedSize).

Definition encryptWithRsa (data : bytes) (dataLength : Z) (rsaKey : string)
    : M (bytes * Z) :=
  call call_BIO_new_mem_buf tt;;
  rsa ← call call_PEM_read_bio_RSA_PUBKEY (PEM_read_bio_RSA_PUBKEY rsaKey);
  match rsa with
  | None =>
      throw (runtime_error "Failed to create key RSA for message encryption")
  | Some rsa =>
      encryptedSize ← call call_RSA_size (RSA_size rsa);
      encrypted ← call_rand call_RSA_public_encrypt
                    (RSA_public_encrypt (take (Z.to_nat dataLength) data) rsa);
      let encrypteLength :=
        match encrypted with Some c => len c | None => -1 end in
      if (encrypteLength =? -1) || negb (encrypteLength =? encryptedSize)
      then throw (runtime_error "Failed to encrypt with RSA key")
      else mret (default [] encrypted, encryptedSize)
  end.

Definition createEncryptedMessage (data : bytes) (dataLength : Z)
    (publicRsaKey : string) : M bytes :=
  aesKey ← generateRandomKey;
  aesIv ← generateRandomIv;
  '(encryptedMsg, encryptedMsgSize) ←
      encryptWithAES data dataLength aesKey aesIv;
  '(encryptedKey, encryptedKeySize) ←
      encryptWithRsa aesKey AES_256_KEY_LENGTH_BYTES publicRsaKey;
  mret (ENCR_MARKER
        ++ take (Z.to_nat encryptedKeySize) encryptedKey
        ++ take (Z.to_nat AES_256_IV_LENGTH_BYTES) aesIv
        ++ take (Z.to_nat encryptedMsgSize) encryptedMsg).

(** ** Decryption *)

(** Returns the session key written to [decryptedKey] and [rsaSize]. *)
Definition decryptKey (encryptedData : bytes) (dataLength : Z)
    (rsaKey : string) : M (bytes * Z) :=
  call call_BIO_new_mem_buf tt;;
  rsa ← call call_PEM_read_bio_RSAPrivateKey
          (PEM_read_bio_RSAPrivateKey rsaKey);
  match rsa with
  | None => throw (runtime_error "Failed to create RSA")
  | Some rsa =>
      rsaSize ← call call_RSA_size (RSA_size rsa);
      if dataLength <? rsaSize
      then throw (runtime_error "Failed to decrypt message") else
      decrypted ← call call_RSA_private_decrypt
                    (RSA_private_decrypt
                       (take (Z.to_nat rsaSize) encryptedData) rsa);
      let result := match decrypted with Some d => len d | None => -1 end in
      if (result =? -1) || negb (result =? AES_256_KEY_LENGTH_BYTES)
      then throw (runtime_error "Failed to decrypt message")
      else mret (take (Z.to_nat AES_256_KEY_LENGTH_BYTES)
                      (default [] decrypted), rsaSize)
  end.

(** Returns the bytes copied to [iv] and their number; [dataLength] is a
    [size_t] here. *)
Definition readIv (data : bytes) (dataLength : Z) : M (bytes * Z) :=
  if dataLength <? AES_256_IV_LENGTH_BYTES
  then throw (runtime_error "Failed to decrypt message")
  else mret (take (Z.to_nat AES_256_IV_LENGTH_BYTES) data,
             AES_256_IV_LENGTH_BYTES).

(** The contents of [decryptedData] after [resize(totalLength)]: a vector of
    [dataLength] bytes receives the output of [EVP_DecryptUpdate] at its
    start and that of [EVP_DecryptFinal_ex] right behind, and is cut to the
    bytes written. *)
Definition decryptedBuffer (encryptedData : bytes) (dataLength : Z)
    (key iv : bytes) : M bytes :=
  if (dataLength <=? 0) || negb (Z.rem dataLength AES_BLOCK_SIZE =? 0)
  then throw (runtime_error "Failed to decrypt message") else
  '(r0, ctx) ← call call_EVP_DecryptInit_ex (EVP_DecryptInit_ex key iv);
  if negb (r0 =? 1)
  then throw (runtime_error "Failed to decrypt message") else
  '(r1, out1, ctx1) ← call call_EVP_DecryptUpdate
                        (EVP_DecryptUpdate ctx encryptedData dataLength);
  if negb (r1 =? 1)
  then throw (runtime_error "Failed to decrypt message") else
  let totalLength := len out1 in
  '(r2, out2) ← call call_EVP_DecryptFinal_ex (EVP_DecryptFinal_ex ctx1);
  if negb (r2 =? 1)
  then throw (runtime_error "Failed to decrypt message") else
  let totalLength := totalLength + len out2 in
  mret (take (Z.to_nat totalLength) (out1 ++ out2)).

Definition decryptData (encryptedData : bytes) (dataLength : Z)
    (key iv : bytes) : M bytes :=
  decryptedData ← decryptedBuffer encryptedData dataLength key iv;
  (* decryptedData.begin() + MSG_RECOGNIZE_TAG.length() *)
  if len decryptedData <? len MSG_RECOGNIZE_TAG then undefined else
  let recognizeTag := take (length MSG_RECOGNIZE_TAG) decryptedData in
  if negb (bytes_eqb recognizeTag MSG_RECOGNIZE_TAG)
  then throw (runtime_error "Failed to decrypt message")
  else mret (drop (length MSG_RECOGNIZE_TAG) decryptedData).

Definition checkMessageMarker (data : bytes) (dataLength : Z) : M unit :=
  if (dataLength <? ENCR_MARKER_SIZE)
     || negb (bytes_eqb (take (Z.to_nat ENCR_MARKER_SIZE) data) ENCR_MARKER)
  then throw (runtime_error "Failed to decrypt message")
  else mret tt.

Definition createDecryptedMessage (encryptedData : bytes) (dataLength : Z)
    (privateRsaKey : string) : M bytes :=
  checkMessageMarker encryptedData dataLength;;
  let encryptedData := drop (Z.to_nat ENCR_MARKER_SIZE) encryptedData in
  let dataLength := dataLength - ENCR_MARKER_SIZE in
  '(aesKey, encKeyLen) ← decryptKey encryptedData dataLength privateRsaKey;
  let encryptedData := drop (Z.to_nat encKeyLen) encryptedData in
  let dataLength := dataLength - encKeyLen in
  '(aesIv, ivLen) ← readIv encryptedData (to_size_t dataLength);
  let encryptedData := drop (Z.to_nat ivLen) encryptedData in
  let dataLength := dataLength - ivLen in
  decryptData encryptedData dataLength aesKey aesIv.

(** ** Key generation and key matching *)

(** A memory BIO written by one of the PEM writers: the result of the
    writer, [rv == 1], and what the BIO holds afterwards. *)
Definition written_bio (r : option string) (partial : string)
    : bool * option string :=
  match r with
  | Some text => (true, Some text)
  | None => (false, Some partial)
  end.

(** The text that ends up in the output string for a BIO ([None]: the BIO
    is null): [n = BIO_pending(bio)] as a [size_t], [buf = new char[n + 1]],
    [BIO_read(bio, buf, n)], [buf[n] = 0] and the assignment of [buf] to the
    string.  For a null BIO nothing is read; [buf] then holds the empty text
    when [n] is 0; when [BIO_pending] returned -1, [n + 1] is 0 and [buf[n]]
    lies outside [buf]; for any other [n] that is allocated the string is
    read from bytes never written. *)
Definition text_of_bio (bio : option string) : M string :=
  match bio with
  | Some text => mret text
  | None =>
      let n := to_size_t BIO_pending_NULL in
      if PTRDIFF_MAX <? to_size_t (n + 1) then throw bad_alloc else
      if n =? 0 then mret ""%string else undefined
  end.

(** Returns [rv == 1] and the two output strings.  [BN_new] and
    [BN_set_word] do not fail (memory does not run out), so that the key
    generation is always attempted.  The part from [BIO_pending] on runs
    whatever [rv] is, on BIOs that are still null when an earlier step
    failed. *)
Definition generateKeysPair : M (bool * string * string) :=
  let e := RSA_F4 in
  let bits := 2048 in
  call call_BN_new tt;;
  call call_BN_set_word tt;;
  (* generate new key *)
  call call_EVP_PKEY_new tt;;
  call call_RSA_new tt;;
  call call_EVP_PKEY_assign_RSA tt;;
  rsa ← call_rand call_RSA_generate_key_ex (RSA_generate_key_ex bits e);
  (* save public key *)
  '(rv, bp_public) ←
    match rsa with
    | Some rsa =>
        call call_BIO_s_mem tt;;
        call call_BIO_new tt;;
        r ← call call_PEM_write_bio_PUBKEY (PEM_write_bio_PUBKEY rsa);
        mret (written_bio r (PEM_write_bio_PUBKEY_partial rsa))
    | None => mret (false, None)
    end;
  (* save private key *)
  '(rv, bp_private) ←
    match rsa with
    | Some rsa =>
        if rv : bool then
          call call_BIO_s_mem tt;;
          call call_BIO_new tt;;
          r ← call call_PEM_write_bio_RSAPrivateKey
                (PEM_write_bio_RSAPrivateKey rsa);
          mret (written_bio r (PEM_write_bio_RSAPrivateKey_partial rsa))
        else mret (false, None)
    | None => mret (false, None)
    end;
  call call_BIO_pending tt;;
  call call_BIO_pending tt;;
  call call_BIO_read tt;;
  call call_BIO_read tt;;
  publicKey ← text_of_bio bp_public;
  privateKey ← text_of_bio bp_private;
  call call_BIO_free_all tt;;
  call call_BIO_free_all tt;;
  call call_RSA_free tt;;
  call call_BN_free tt;;
  mret (rv, publicKey, privateKey).

Definition createPrivateRSA (key : string) : option RSA :=
  PEM_read_bio_RSAPrivateKey key.

Definition createPublicRSA (key : string) : option RSA :=
  PEM_read_bio_RSA_PUBKEY key.

Definition BN_cmp (a b : Z) : Z :=
  match a ?= b with Lt => -1 | Eq => 0 | Gt => 1 end.

Definition matchRSAKeys (publicKey privateKey : string) : bool :=
  let private_key := createPrivateRSA privateKey in
  let public_key := createPublicRSA publicKey in
  match private_key, public_key with
  | Some private_key, Some public_key =>
      BN_cmp (RSA_n public_key) (RSA_n private_key) =? 0
  | _, _ => false
  end.

(** ** Signatures *)

(** Returns the result flag and the contents of [signature] (which nobody
    reads when the flag is false).  [rsa] is null when the key text did not
    parse.  [EVP_DigestSignUpdate] only feeds the digest. *)
Definition RSASign (rsa : option RSA) (Msg : bytes) (MsgLen : Z)
    : bool * bytes :=
  if EVP_DigestSignInit rsa <=? 0 then (false, []) else
  match EVP_DigestSignFinal rsa (take (Z.to_nat MsgLen) Msg) with
  | None => (false, [])
  | Some sig => (true, sig)
  end.

(** Returns the result flag and [*Authentic]. *)
Definition RSAVerifySignature (rsa : option RSA) (signature Msg : bytes)
    (MsgLen : Z) : bool * bool :=
  if EVP_DigestVerifyInit rsa <=? 0 then (false, false) else
  let AuthStatus :=
    EVP_DigestVerifyFinal rsa (take (Z.to_nat MsgLen) Msg) signature in
  if AuthStatus =? 1 then (true, true)
  else if AuthStatus =? 0 then (true, false)
  else (false, false).

Definition signMessage (privateKey : string) (plainText : bytes)
    : outcome bytes :=
  let privateRSA := createPrivateRSA privateKey in
  let '(result, signature) := RSASign privateRSA plainText (len plainText) in
  if negb result || negb (len signature =? RSA_SIGNATURE_LENGTH)
  then Throw (runtime_error "Could not sign message")
  else Ret signature.

Definition verifySignature (publicKey : string) (plainText signature : bytes)
    : bool :=
  let publicRSA := createPublicRSA publicKey in
  let '(result, authentic) :=
    RSAVerifySignature publicRSA signature plainText (len plainText) in
  result && authentic.

End Model.

(** ** Notions the properties are stated with *)

Section Notions.
Context {SSL : OpenSSL}.

(** What [EVP_EncryptUpdate] followed by [EVP_EncryptFinal_ex] write for
    [data]: the CBC encryption of the full blocks of [data] and of its
    padded tail. *)

Definition pad_block (tail : bytes) : bytes :=
  tail ++ replicate (16 - length tail) (ascii_of_nat (16 - length tail)).

Definition aes_cbc_encrypt (key iv data : bytes) : bytes :=
  let n := (length data / 16)%nat in
  concat (fst (cbc_encrypt key iv
                 (blocks n data ++ [pad_block (drop (16 * n) data)]))).

(** The world once [decryptKey] has returned: its four calls are logged. *)
Definition after_key_recovery (w : world) : world :=
  World (rand w)
    (calls w ++ [call_BIO_new_mem_buf; call_PEM_read_bio_RSAPrivateKey;
                 call_RSA_size; call_RSA_private_decrypt]).

(** A keypair as [generateKeysPair] hands it out on success. *)
Definition fresh_keypair (pub priv : string) : Prop :=
  exists w w', generateKeysPair w = (Ret (true, pub, priv), w').

(** The modulus of a private key text, when it parses. *)
Definition modulus_of (priv : string) : option Z :=
  RSA_n <$> createPrivateRSA priv.

(** The three ways [RSAVerifySignature] can end, read off its result flag
    and [*Authentic]. *)
Inductive verification := Verified_match | Verified_mismatch | Not_performed.

Definition verification_of (r : bool * bool) : verification :=
  match r with
  | (true, true) => Verified_match
  | (true, false) => Verified_mismatch
  | (false, _) => Not_performed
  end.

(** The causes for which decryption gives up, as conditions on the buffer
    handed to [createDecryptedMessage] and on the parsed private key: each
    is the test of one of its gates, the earlier gates having been passed. *)
Inductive failure :=
| Bad_marker | Truncated | Misaligned
| OAEP_failure | Key_length_mismatch | Padding_failure
| Tag_mismatch.

Definition envelope_fails (k : RSA) (buf : bytes) (f : failure) : Prop :=
  let rest := drop 8 buf in
  let m := Z.to_nat (RSA_size k) in
  let wrapped_key := take m rest in
  let iv := take 16 (drop m rest) in
  let c := drop 16 (drop m rest) in
  let key_recovered d :=
    take 8 buf = ENCR_MARKER /\ 8 + RSA_size k + 16 <= len buf
    /\ RSA_private_decrypt wrapped_key k = Some d /\ len d = 32 in
  match f with
  | Bad_marker => len buf < 8 \/ take 8 buf <> ENCR_MARKER
  | Truncated => take 8 buf = ENCR_MARKER /\ len buf < 8 + RSA_size k + 16
  | OAEP_failure =>
      take 8 buf = ENCR_MARKER /\ RSA_size k <= len rest
      /\ RSA_private_decrypt wrapped_key k = None
  | Key_length_mismatch =>
      take 8 buf = ENCR_MARKER /\ RSA_size k <= len rest
      /\ exists d, RSA_private_decrypt wrapped_key k = Some d /\ len d <> 32
  | Misaligned =>
      exists d, key_recovered d /\ (len c = 0 \/ len c mod 16 <> 0)
  | Padding_failure =>
      exists d, key_recovered d /\ 0 < len c /\ len c mod 16 = 0
        /\ fst (EVP_DecryptFinal_ex
                  (snd (EVP_DecryptUpdate (snd (EVP_DecryptInit_ex d iv))
                          c (len c)))) <> 1
  | Tag_mismatch =>
      exists d b w, key_recovered d
        /\ fst (decryptedBuffer c (len c) d iv w) = Ret b
        /\ 3 <= len b /\ take 3 b <> MSG_RECOGNIZE_TAG
  end.

End Notions.

(** The plaintext of the worked scenario. *)
Definition hello_world : bytes := list_ascii_of_string "hello world".

(** ** A small executable instance of the interface

    Used to run the model on concrete inputs; it meets [OpenSSL_spec]
    ([toy_spec] below).  Keys are "2048-bit" keys identified by a small
    number; the block cipher and the RSA operations mask their input with a
    byte derived from the key; a signature is the masked first 256 bytes of
    the message. *)

Record toy_rsa := { toy_n : nat; toy_private : bool }.

Definition toy_mask (n : nat) : bytes -> bytes :=
  map (xor_byte (ascii_of_nat n)).

Definition toy_key_byte (k : bytes) : ascii := foldr xor_byte zero k.

Definition toy_RAND_bytes (n : nat) (s : nat) : option bytes * nat :=
  (Some (map (fun i => ascii_of_nat (7 * (s + i) + 3)) (seq 0 n)), (s + n)%nat).

Fixpoint toy_unary (n : nat) : string :=
  match n with
  | 0%nat => EmptyString
  | S n' => String "x" (toy_unary n')
  end.

Fixpoint toy_of_unary (s : string) : option nat :=
  match s with
  | EmptyString => Some 0%nat
  | String c s' =>
      if Ascii.eqb c "x" then option_map S (toy_of_unary s') else None
  end.

Definition toy_PEM_write (tag : ascii) (k : toy_rsa) : string :=
  String tag (toy_unary (toy_n k)).

Definition toy_PEM_read (tag : ascii) (private : bool) (t : string)
    : option toy_rsa :=
  match t with
  | String c s =>
      if Ascii.eqb c tag
      then option_map (fun n => {| toy_n := n; toy_private := private |})
                      (toy_of_unary s)
      else None
  | EmptyString => None
  end.

Definition toy_generate (bits e : Z) (s : nat) : option toy_rsa * nat :=
  if bits =? 2048
  then (Some {| toy_n := (s + 2)%nat; toy_private := true |}, (s + 1)%nat)
  else (None, s).

Definition toy_public_encrypt (d : bytes) (k : toy_rsa) (s : nat)
    : option bytes * nat :=
  if (214 <? length d)%nat then (None, s)
  else (Some (toy_mask (toy_n k)
                (ascii_of_nat (length d)
                 :: d ++ replicate (255 - length d) (ascii_of_nat s))),
        (s + 1)%nat).

Definition toy_private_decrypt (c : bytes) (k : toy_rsa) : option bytes :=
  if toy_private k && (length c =? 256)%nat then
    match toy_mask (toy_n k) c with
    | l :: rest =>
        if (nat_of_ascii l <=? 214)%nat
        then Some (take (nat_of_ascii l) rest) else None
    | [] => None
    end
  else None.

Definition toy_signature (n : nat) (msg : bytes) : bytes :=
  toy_mask n (take 256 (msg ++ replicate 256 zero)).

Definition toy_digest_init (k : option toy_rsa) : Z :=
  match k with Some _ => 1 | None => 0 end.

Definition toy_sign (k : option toy_rsa) (msg : bytes) : option bytes :=
  match k with
  | Some k =>
      if toy_private k then Some (toy_signature (toy_n k) msg) else None
  | None => None
  end.

Definition toy_verify (k : option toy_rsa) (msg sig : bytes) : Z :=
  match k with
  | Some k =>
      if (length sig =? 256)%nat
      then (if bool_decide (sig = toy_signature (toy_n k) msg) then 1 else 0)
      else -1
  | None => -1
  end.

Definition toy : OpenSSL := {|
  rand_state := nat;
  RAND_bytes := toy_RAND_bytes;
  AES_encrypt := fun k b => map (xor_byte (toy_key_byte k)) b;
  AES_decrypt := fun k b => map (xor_byte (toy_key_byte k)) b;
  RSA := toy_rsa;
  RSA_n := fun k => Z.of_nat (toy_n k);
  RSA_size := fun _ => 256;
  RSA_check_key := toy_private;
  RSAPublicKey_dup := fun k => {| toy_n := toy_n k; toy_private := false |};
  PEM_read_bio_RSA_PUBKEY := toy_PEM_read "P" false;
  PEM_read_bio_RSAPrivateKey := toy_PEM_read "R" true;
  PEM_write_bio_PUBKEY := fun k => Some (toy_PEM_write "P" k);
  PEM_write_bio_RSAPrivateKey := fun k => Some (toy_PEM_write "R" k);
  PEM_write_bio_PUBKEY_partial := fun _ => ""%string;
  PEM_write_bio_RSAPrivateKey_partial := fun _ => ""%string;
  BIO_pending_NULL := 0;
  RSA_generate_key_ex := toy_generate;
  RSA_public_encrypt := toy_public_encrypt;
  RSA_private_decrypt := toy_private_decrypt;
  EVP_DigestSignInit := toy_digest_init;
  EVP_DigestVerifyInit := toy_digest_init;
  EVP_DigestSignFinal := toy_sign;
  EVP_DigestVerifyFinal := toy_verify
|}.

Definition toy_world (s : nat) : @world toy := World (SSL := toy) s [].

(** the keypair generated from seed 1 and the one generated from seed 5 *)
Definition toy_pub : string := "Pxxx".
Definition toy_priv : string := "Rxxx".
Definition toy_pub2 : string := "Pxxxxxxx".
Definition toy_priv2 : string := "Rxxxxxxx".

Definition secret : bytes := list_ascii_of_string "secret".
Definition not_an_envelope : bytes :=
  list_ascii_of_string "GARBAGE: no envelope".
Definition toy_key : toy_rsa := {| toy_n := 3; toy_private := true |}.
Definition toy_hello_signature : bytes := toy_signature 3 hello_world.
Definition a256 : bytes := replicate 256 "a"%char.

(** The envelope the instance makes for [p] under [toy_pub], the generator
    being in state [seed]. *)
Definition toy_encrypt (p : bytes) (seed : nat) : outcome bytes * @world toy :=
  createEncryptedMessage (SSL := toy) p (len p) toy_pub (toy_world seed).

Definition toy_envelope (p : bytes) (seed : nat) : bytes :=
  match fst (toy_encrypt p seed) with Ret env => env | _ => [] end.


(** The instance with an entropy pool that runs dry: the generator state is
    the number of bytes it can still deliver, and generating a key takes
    256 of them.  [BIO_pending] on a null BIO is -1 here. *)
Definition starved_RAND_bytes (n : nat) (s : nat) : option bytes * nat :=
  if (n <=? s)%nat then (Some (replicate n zero), (s - n)%nat) else (None, s).

Definition starved_generate (bits e : Z) (s : nat) : option toy_rsa * nat :=
  if (256 <=? s)%nat then toy_generate bits e (s - 256)%nat else (None, s).

Definition starved : OpenSSL := {|
  rand_state := nat;
  RAND_bytes := starved_RAND_bytes;
  AES_encrypt := AES_encrypt (OpenSSL := toy);
  AES_decrypt := AES_decrypt (OpenSSL := toy);
  RSA := toy_rsa;
  RSA_n := RSA_n (OpenSSL := toy);
  RSA_size := RSA_size (OpenSSL := toy);
  RSA_check_key := toy_private;
  RSAPublicKey_dup := RSAPublicKey_dup (OpenSSL := toy);
  PEM_read_bio_RSA_PUBKEY := toy_PEM_read "P" false;
  PEM_read_bio_RSAPrivateKey := toy_PEM_read "R" true;
  PEM_write_bio_PUBKEY := fun k => Some (toy_PEM_write "P" k);
  PEM_write_bio_RSAPrivateKey := fun k => Some (toy_PEM_write "R" k);
  PEM_write_bio_PUBKEY_partial := fun _ => ""%string;
  PEM_write_bio_RSAPrivateKey_partial := fun _ => ""%string;
  BIO_pending_NULL := -1;
  RSA_generate_key_ex := starved_generate;
  RSA_public_encrypt := toy_public_encrypt;
  RSA_private_decrypt := toy_private_decrypt;
  EVP_DigestSignInit := toy_digest_init;
  EVP_DigestVerifyInit := toy_digest_init;
  EVP_DigestSignFinal := toy_sign;
  EVP_DigestVerifyFinal := toy_verify
|}.

Definition starved_world (s : nat) : @world starved :=
  World (SSL := starved) s [].

(** A plaintext of 2^31 bytes, one more than [INT_MAX]. *)
Definition two_gib : bytes := replicate (Z.to_nat (2 ^ 31)) zero.

(** ** rpc/lottery.cpp: the mask of a bet

    The part of [makebet] that settles [mask] from the bet number and the
    optional third parameter [reward_mult_ratio] ([None] when it is null).
    [getMask] and [maskToReward] come from lottery/lotterytxs.h and
    [to_string] is [std::to_string]; they are taken as given.
    [rewardMult] is an [int]; [rewardMult - 1] is only evaluated when
    [rewardMult > 0]. *)

Section Lottery.
Variables (getMask maskToReward : Z -> Z) (to_string : Z -> string).

Definition makebet_mask (betNumber : Z) (reward_mult_ratio : option Z)
    : outcome Z :=
  let mask := getMask betNumber in
  match reward_mult_ratio with
  | None => Ret mask
  | Some rewardMult =>
      let minReward := maskToReward mask in
      if negb ((0 <? rewardMult)
               && (Z.land rewardMult (rewardMult - 1) =? 0))
      then Throw (runtime_error "reward_mult_ratio must be power of 2")
      else if rewardMult <? minReward
      then Throw (runtime_error
                    ("reward_mult_ratio must be at least "
                     ++ to_string minReward))
      else Ret (getMask (rewardMult - 1))
  end.

End Lottery.

(** * Properties *)

(** ** Bytes and blocks *)

Lemma xor_byte_cancel (a b : ascii) : xor_byte (xor_byte a b) b = a.
Proof.
  destruct a, b; simpl.
  rewrite !xorb_assoc, !xorb_nilpotent, !xorb_false_r. reflexivity.
Qed.

Lemma xor_bytes_length (a b : bytes) :
  length a = length b -> length (xor_bytes a b) = length a.
Proof.
  unfold xor_bytes. intros E. rewrite length_zip_with. lia.
Qed.

Lemma xor_bytes_cancel (a b : bytes) :
  length a = length b -> xor_bytes (xor_bytes a b) b = a.
Proof.
  unfold xor_bytes. revert b.
  induction a as [|x a IH]; intros [|y b] E; simpl in *; try discriminate.
  - reflexivity.
  - rewrite xor_byte_cancel, IH by lia. reflexivity.
Qed.

Lemma map_xor_byte_cancel (m : ascii) (b : bytes) :
  map (xor_byte m) (map (xor_byte m) b) = b.
Proof.
  induction b as [|x b IH]; simpl; [reflexivity|].
  rewrite IH. f_equal.
  destruct m, x; simpl.
  rewrite <- !xorb_assoc, !xorb_nilpotent, !xorb_false_l. reflexivity.
Qed.

Lemma blocks_concat (bs : list bytes) (rest : bytes) :
  Forall (fun b => length b = 16%nat) bs ->
  blocks (length bs) (concat bs ++ rest) = bs.
Proof.
  induction 1 as [|b bs Hb _ IH]; cbn [length blocks concat]; [reflexivity|].
  rewrite <- !app_assoc.
  rewrite take_app_length' by congruence.
  rewrite drop_app_length' by congruence.
  rewrite IH. reflexivity.
Qed.

Lemma blocks_all_16 (n : nat) (d : bytes) :
  (16 * n <= length d)%nat ->
  Forall (fun b => length b = 16%nat) (blocks n d).
Proof.
  revert d. induction n as [|n IH]; intros d H; cbn [blocks]; constructor.
  - rewrite length_take. lia.
  - apply IH. rewrite length_drop. lia.
Qed.

Lemma concat_blocks (n : nat) (d : bytes) :
  concat (blocks n d) = take (16 * n) d.
Proof.
  revert d. induction n as [|n IH]; intros d.
  - reflexivity.
  - replace (16 * S n)%nat with (16 + 16 * n)%nat by lia.
    cbn [blocks concat]. rewrite IH. apply take_take_drop.
Qed.

Lemma length_blocks (n : nat) (d : bytes) : length (blocks n d) = n.
Proof. revert d. induction n; intros; cbn [blocks length]; auto. Qed.

Lemma length_concat_16 (bs : list bytes) :
  Forall (fun b => length b = 16%nat) bs ->
  length (concat bs) = (16 * length bs)%nat.
Proof.
  induction 1 as [|b bs Hb _ IH]; cbn [concat length]; [reflexivity|].
  rewrite length_app, IH, Hb. lia.
Qed.

(** ** The executable instance meets the interface's specification *)

Lemma toy_of_unary_unary (n : nat) : toy_of_unary (toy_unary n) = Some n.
Proof.
  induction n as [|n IH]; cbn [toy_unary toy_of_unary]; [reflexivity|].
  rewrite Ascii.eqb_refl, IH. reflexivity.
Qed.

Lemma length_toy_signature (n : nat) (msg : bytes) :
  length (toy_signature n msg) = 256%nat.
Proof.
  unfold toy_signature, toy_mask.
  rewrite length_map, length_take, length_app, length_replicate. lia.
Qed.

Lemma toy_private_decrypt_encrypt (k : toy_rsa) (d : bytes) (s s' : nat) c :
  toy_private k = true ->
  toy_public_encrypt d {| toy_n := toy_n k; toy_private := false |} s
    = (Some c, s') ->
  toy_private_decrypt c k = Some d.
Proof.
  intros Hk. unfold toy_public_encrypt, toy_private_decrypt.
  change (toy_n {| toy_n := toy_n k; toy_private := false |})
    with (toy_n k).
  destruct (214 <? length d)%nat eqn:E; [discriminate|].
  apply Nat.ltb_ge in E.
  set (padded := ascii_of_nat (length d)
                 :: d ++ replicate (255 - length d) (ascii_of_nat s)).
  intros H.
  assert (c = toy_mask (toy_n k) padded) as -> by congruence.
  assert (Hlen : length (toy_mask (toy_n k) padded) = 256%nat).
  { unfold toy_mask, padded. rewrite length_map. cbn [length].
    rewrite length_app, length_replicate. lia. }
  rewrite Hk, Hlen, Nat.eqb_refl. cbn [andb].
  unfold toy_mask. rewrite map_xor_byte_cancel. unfold padded.
  rewrite nat_ascii_embedding by lia.
  destruct (length d <=? 214)%nat eqn:E'; [|apply Nat.leb_gt in E'; lia].
  rewrite take_app_length. reflexivity.
Qed.

#[export] Instance toy_spec : OpenSSL_spec toy.
Proof.
  split; cbn.
  - intros n s b s' H. inversion H; subst.
    rewrite length_map, length_seq. reflexivity.
  - intros k b H. rewrite length_map. exact H.
  - intros k b _ _. apply map_xor_byte_cancel.
  - intros bits e s k s'. unfold toy_generate.
    destruct (bits =? 2048) eqn:E; [|discriminate].
    apply Z.eqb_eq in E. subst bits.
    intros H. inversion H; subst. split; reflexivity.
  - intros _. lia.
  - reflexivity.
  - reflexivity.
  - intros k _. eexists. split; [reflexivity|].
    unfold toy_PEM_write, toy_PEM_read.
    rewrite Ascii.eqb_refl, toy_of_unary_unary. reflexivity.
  - intros [n p] Hp. cbn in Hp. subst p. eexists. split; [reflexivity|].
    unfold toy_PEM_write, toy_PEM_read.
    rewrite Ascii.eqb_refl, toy_of_unary_unary. reflexivity.
  - intros k d s c s'. apply toy_private_decrypt_encrypt.
  - intros k _. split; reflexivity.
  - intros k msg Hk. exists (toy_signature (toy_n k) msg).
    unfold toy_sign, toy_verify, len. rewrite Hk, length_toy_signature.
    cbn [toy_n Nat.eqb]. rewrite bool_decide_eq_true_2 by reflexivity.
    auto.
Qed.

Section Properties.
Context {SSL : OpenSSL} {SPEC : OpenSSL_spec SSL}.

(** ** CBC chaining *)

Lemma cbc_encrypt_app (key iv : bytes) (bs1 bs2 : list bytes) :
  cbc_encrypt key iv (bs1 ++ bs2) =
  (fst (cbc_encrypt key iv bs1)
     ++ fst (cbc_encrypt key (snd (cbc_encrypt key iv bs1)) bs2),
   snd (cbc_encrypt key (snd (cbc_encrypt key iv bs1)) bs2)).
Proof.
  revert iv. induction bs1 as [|b bs1 IH]; intros iv; simpl.
  - destruct (cbc_encrypt key iv bs2); reflexivity.
  - rewrite IH.
    destruct (cbc_encrypt key (AES_encrypt key (xor_bytes b iv)) bs1).
    reflexivity.
Qed.

Lemma cbc_encrypt_all_16 (key iv : bytes) (bs : list bytes) :
  length iv = 16%nat ->
  Forall (fun b => length b = 16%nat) bs ->
  Forall (fun b => length b = 16%nat) (fst (cbc_encrypt key iv bs))
  /\ length (snd (cbc_encrypt key iv bs)) = 16%nat.
Proof.
  intros Hiv Hbs. revert iv Hiv.
  induction Hbs as [|b bs Hb _ IH]; intros iv Hiv; simpl; [auto|].
  assert (Hc : length (AES_encrypt key (xor_bytes b iv)) = 16%nat).
  { apply AES_encrypt_length. rewrite xor_bytes_length; congruence. }
  destruct (IH _ Hc) as [IH1 IH2].
  destruct (cbc_encrypt key (AES_encrypt key (xor_bytes b iv)) bs); simpl in *.
  split; [constructor|]; assumption.
Qed.

Lemma length_cbc_encrypt (key iv : bytes) (bs : list bytes) :
  length (fst (cbc_encrypt key iv bs)) = length bs.
Proof.
  revert iv. induction bs as [|b bs IH]; intros iv; simpl; [reflexivity|].
  specialize (IH (AES_encrypt key (xor_bytes b iv))).
  destruct (cbc_encrypt key (AES_encrypt key (xor_bytes b iv)) bs).
  simpl in *. congruence.
Qed.

Lemma cbc_decrypt_encrypt (key iv : bytes) (bs : list bytes) :
  length key = 32%nat -> length iv = 16%nat ->
  Forall (fun b => length b = 16%nat) bs ->
  fst (cbc_decrypt key iv (fst (cbc_encrypt key iv bs))) = bs.
Proof.
  intros Hk Hiv Hbs. revert iv Hiv.
  induction Hbs as [|b bs Hb _ IH]; intros iv Hiv; simpl; [reflexivity|].
  assert (Hx : length (xor_bytes b iv) = 16%nat)
    by (rewrite xor_bytes_length; congruence).
  specialize (IH (AES_encrypt key (xor_bytes b iv))
                 (AES_encrypt_length _ _ Hx)).
  destruct (cbc_encrypt key (AES_encrypt key (xor_bytes b iv)) bs) as [cs iv'].
  simpl in *.
  destruct (cbc_decrypt key (AES_encrypt key (xor_bytes b iv)) cs) as [ps iv''].
  simpl in *. subst ps.
  rewrite AES_decrypt_encrypt by assumption.
  rewrite xor_bytes_cancel by congruence. reflexivity.
Qed.

(** ** The EVP layer *)

Lemma EVP_encrypt_spec (key iv data : bytes) (inl : Z) :
  0 <= inl ->
  exists out1 ctx1 out2,
    EVP_EncryptUpdate (snd (EVP_EncryptInit_ex key iv)) data inl
      = (1, out1, ctx1)
    /\ EVP_EncryptFinal_ex ctx1 = (1, out2)
    /\ out1 ++ out2
       = aes_cbc_encrypt (take 32 key) (take 16 iv)
           (take (Z.to_nat inl) data).
Proof.
  intros Hinl. unfold EVP_EncryptUpdate, EVP_EncryptInit_ex, EVP_CipherInit.
  cbn [snd ctx_key ctx_iv ctx_buf ctx_final].
  destruct (inl <=? 0) eqn:Hle.
  - assert (inl = 0) by lia. subst inl.
    eexists _, _, _. split; [reflexivity|]. split; [reflexivity|].
    change (take (Z.to_nat 0) data) with (@nil ascii).
    unfold aes_cbc_encrypt. cbn. rewrite ?app_nil_r. reflexivity.
  - rewrite app_nil_l.
    set (d := take (Z.to_nat inl) data).
    set (n := (length d / 16)%nat).
    destruct (cbc_encrypt (take 32 key) (take 16 iv) (blocks n d))
      as [cs iv'] eqn:E.
    eexists _, _, _. split; [reflexivity|]. split; [reflexivity|].
    cbn [ctx_key ctx_iv ctx_buf].
    unfold aes_cbc_encrypt. fold n.
    rewrite cbc_encrypt_app, E. cbn [fst snd cbc_encrypt].
    rewrite concat_app. cbn [concat]. rewrite app_nil_r. reflexivity.
Qed.

Lemma pad_block_length (tail : bytes) :
  (length tail < 16)%nat -> length (pad_block tail) = 16%nat.
Proof.
  intros H. unfold pad_block. rewrite length_app, length_replicate. lia.
Qed.

Lemma aes_cbc_encrypt_blocks (key iv data : bytes) :
  length iv = 16%nat ->
  let n := (length data / 16)%nat in
  let ps := blocks n data ++ [pad_block (drop (16 * n) data)] in
  Forall (fun b => length b = 16%nat) ps
  /\ Forall (fun b => length b = 16%nat) (fst (cbc_encrypt key iv ps))
  /\ length (fst (cbc_encrypt key iv ps)) = S n.
Proof.
  intros Hiv n ps.
  pose proof (Nat.div_mod_eq (length data) 16) as Hdm.
  pose proof (Nat.mod_upper_bound (length data) 16) as Hub.
  assert (Hps : Forall (fun b => length b = 16%nat) ps).
  { apply Forall_app. split.
    - apply blocks_all_16. subst n. lia.
    - constructor; [|constructor]. apply pad_block_length.
      rewrite length_drop. subst n. lia. }
  split; [assumption|]. split.
  - apply cbc_encrypt_all_16; assumption.
  - rewrite length_cbc_encrypt. subst ps.
    rewrite length_app, length_blocks. cbn. lia.
Qed.

Lemma length_aes_cbc_encrypt (key iv data : bytes) :
  length iv = 16%nat ->
  length (aes_cbc_encrypt key iv data) = (16 * (length data / 16 + 1))%nat.
Proof.
  intros Hiv. unfold aes_cbc_encrypt.
  destruct (aes_cbc_encrypt_blocks key iv data Hiv) as (_ & H16 & Hn).
  rewrite length_concat_16 by assumption. rewrite Hn. lia.
Qed.

Lemma len_aes_cbc_encrypt (key iv data : bytes) :
  length iv = 16%nat ->
  len (aes_cbc_encrypt key iv data) = len data + 16 - len data mod 16.
Proof.
  intros Hiv. unfold len. rewrite length_aes_cbc_encrypt by assumption.
  rewrite Nat2Z.inj_mul, Nat2Z.inj_add, Nat2Z.inj_div.
  change (Z.of_nat 16) with 16. change (Z.of_nat 1) with 1.
  pose proof (Z.div_mod (Z.of_nat (length data)) 16). lia.
Qed.

Lemma last_pad_block (tail : bytes) :
  (length tail < 16)%nat ->
  List.last (pad_block tail) zero = ascii_of_nat (16 - length tail).
Proof.
  intros H. unfold pad_block.
  destruct (16 - length tail)%nat as [|k] eqn:E; [lia|].
  rewrite replicate_S_end, app_assoc. apply last_last.
Qed.

Lemma forallb_replicate (c : ascii) (k : nat) :
  forallb (Ascii.eqb c) (replicate k c) = true.
Proof.
  induction k as [|k IH]; cbn [replicate forallb]; [reflexivity|].
  rewrite Ascii.eqb_refl, IH. reflexivity.
Qed.

Lemma EVP_DecryptFinal_ex_pad (key iv tail : bytes) :
  (length tail < 16)%nat ->
  EVP_DecryptFinal_ex
    {| ctx_key := key; ctx_iv := iv; ctx_buf := [];
       ctx_final := Some (pad_block tail) |} = (1, tail).
Proof.
  intros H. unfold EVP_DecryptFinal_ex. cbn [ctx_buf ctx_final].
  rewrite last_pad_block by assumption.
  rewrite nat_ascii_embedding by lia.
  replace (16 - (16 - length tail))%nat with (length tail) by lia.
  destruct (16 - length tail =? 0)%nat eqn:E0; [apply Nat.eqb_eq in E0; lia|].
  destruct (16 <? 16 - length tail)%nat eqn:E1;
    [apply Nat.ltb_lt in E1; lia|].
  cbn [orb]. unfold pad_block.
  rewrite drop_app_length, take_app_length, forallb_replicate. reflexivity.
Qed.

Lemma EVP_decrypt_spec (key iv data : bytes) :
  length key = 32%nat -> length iv = 16%nat ->
  exists out1 ctx1,
    EVP_DecryptUpdate (snd (EVP_DecryptInit_ex key iv))
        (aes_cbc_encrypt key iv data) (len (aes_cbc_encrypt key iv data))
      = (1, out1, ctx1)
    /\ EVP_DecryptFinal_ex ctx1 = (1, drop (16 * (length data / 16)) data)
    /\ out1 = take (16 * (length data / 16)) data.
Proof.
  intros Hk Hiv.
  pose proof (length_aes_cbc_encrypt key iv data Hiv) as HL.
  destruct (aes_cbc_encrypt_blocks key iv data Hiv) as (Hps & Hcs & Hn).
  pose proof (cbc_decrypt_encrypt key iv _ Hk Hiv Hps) as Hdec.
  pose proof (Nat.div_mod_eq (length data) 16) as Hdm.
  pose proof (Nat.mod_upper_bound (length data) 16) as Hub.
  unfold EVP_DecryptUpdate, EVP_DecryptInit_ex, EVP_CipherInit.
  cbn [snd ctx_key ctx_iv ctx_buf ctx_final].
  rewrite (take_ge key), (take_ge iv) by lia.
  destruct (len (aes_cbc_encrypt key iv data) <=? 0) eqn:Hle;
    [unfold len in Hle; lia|].
  rewrite !app_nil_l.
  unfold len. rewrite Nat2Z.id, take_ge by lia.
  rewrite HL.
  replace (16 * (length data / 16 + 1) / 16)%nat with (S (length data / 16))
    by (rewrite Nat.mul_comm, Nat.div_mul; lia).
  set (n := (length data / 16)%nat) in *.
  assert (Hblocks : blocks (S n) (aes_cbc_encrypt key iv data)
                    = fst (cbc_encrypt key iv
                             (blocks n data ++ [pad_block (drop (16 * n) data)]))).
  { unfold aes_cbc_encrypt. fold n. rewrite <- Hn.
    rewrite <- (app_nil_r (concat _)). apply blocks_concat. assumption. }
  rewrite Hblocks.
  destruct (cbc_decrypt key iv _) as [ps iv'] eqn:E.
  cbn [fst] in Hdec. subst ps.
  rewrite drop_ge by lia.
  rewrite removelast_last, last_last.
  eexists _, _. split; [reflexivity|]. split.
  - apply EVP_DecryptFinal_ex_pad. rewrite length_drop. lia.
  - apply concat_blocks.
Qed.

(** ** Running the functions of the module *)

Local Arguments EVP_EncryptUpdate : simpl never.
Local Arguments EVP_EncryptFinal_ex : simpl never.
Local Arguments EVP_DecryptUpdate : simpl never.
Local Arguments EVP_DecryptFinal_ex : simpl never.
Local Arguments aes_cbc_encrypt : simpl never.
Local Arguments Z.to_nat : simpl never.
Local Arguments Z.of_nat : simpl never.
Local Arguments take : simpl never.
Local Arguments drop : simpl never.

Ltac run_monad :=
  unfold mbind, M_bind, mret, M_ret, call, call_rand, throw, undefined;
  cbn [fst snd rand calls].

Lemma to_int_small (z : Z) : 0 <= z <= INT_MAX -> to_int z = z.
Proof.
  unfold to_int, INT_MAX. intros H.
  rewrite Z.mod_small by lia. lia.
Qed.

Lemma to_int_le (L : Z) : 0 <= L -> to_int L <= L.
Proof.
  unfold to_int. intros H.
  change (2 ^ 31) with 2147483648 in *.
  change (2 ^ 32) with 4294967296 in *.
  Z.div_mod_to_equations. lia.
Qed.

Lemma to_int_add_l (a b : Z) : to_int (to_int a + b) = to_int (a + b).
Proof.
  unfold to_int.
  replace ((a + 2 ^ 31) mod 2 ^ 32 - 2 ^ 31 + b + 2 ^ 31)
    with ((a + 2 ^ 31) mod 2 ^ 32 + b) by lia.
  rewrite Z.add_mod_idemp_l by lia.
  f_equal. f_equal. lia.
Qed.

(** The size check of [encryptWithAES] when the padded size fits an [int]
    and when it does not. *)
Lemma total_fits (P : Z) :
  0 <= P <= INT_MAX ->
  to_size_t (to_int P) = to_size_t P /\ to_size_t P = P
  /\ (PTRDIFF_MAX <? to_size_t P) = false.
Proof.
  intros H. rewrite to_int_small by assumption.
  assert (E : to_size_t P = P)
    by (unfold to_size_t; apply Z.mod_small; unfold INT_MAX in H; lia).
  rewrite E. repeat split.
  unfold PTRDIFF_MAX, INT_MAX in *. lia.
Qed.

Lemma total_wraps (L : Z) :
  0 <= L < 2 ^ 64 -> INT_MAX < L + 16 - L mod 16 -> 0 <= to_int L ->
  to_size_t (L + 16 - L mod 16) <= PTRDIFF_MAX ->
  to_size_t (to_int (to_int L + 16 - to_int L mod 16))
  <> to_size_t (L + 16 - L mod 16).
Proof.
  unfold INT_MAX, PTRDIFF_MAX, to_size_t. intros HL HP Hv HE.
  assert (Hv' : to_int L <= INT_MAX).
  { unfold to_int, INT_MAX.
    pose proof (Z.mod_pos_bound (L + 2 ^ 31) (2 ^ 32)). lia. }
  unfold INT_MAX in Hv'.
  set (v := to_int L) in *.
  set (S := v + 16 - v mod 16).
  assert (HS : 16 <= S <= 2 ^ 31 /\ S mod 16 = 0).
  { subst S. pose proof (Z.mod_pos_bound v 16).
    split; [Z.div_mod_to_equations; lia|].
    replace (v + 16 - v mod 16) with ((v / 16 + 1) * 16)
      by (pose proof (Z.div_mod v 16); lia).
    apply Z.mod_mul. lia. }
  set (E := (L + 16 - L mod 16) mod 2 ^ 64) in *.
  assert (HE' : E = 0 \/ INT_MAX < E).
  { subst E. unfold INT_MAX.
    pose proof (Z.mod_pos_bound L 16).
    destruct (Z.eq_dec (L + 16 - L mod 16) (2 ^ 64)) as [->|Hne].
    - left. apply Z.mod_same. lia.
    - right. rewrite Z.mod_small by (Z.div_mod_to_equations; lia). lia. }
  unfold INT_MAX in HE'.
  destruct (Z.eq_dec S (2 ^ 31)) as [HS31|HS31].
  - rewrite HS31. change (to_int (2 ^ 31)) with (- 2 ^ 31).
    change ((- 2 ^ 31) mod 2 ^ 64) with (2 ^ 64 - 2 ^ 31). lia.
  - rewrite to_int_small by (unfold INT_MAX; lia).
    rewrite Z.mod_small by lia. lia.
Qed.

Lemma encryptWithAES_ok (data key iv : bytes) (w : world) :
  len data + 16 - len data mod 16 <= INT_MAX -> length iv = 16%nat ->
  encryptWithAES data (len data) key iv w =
  (Ret (aes_cbc_encrypt (take 32 key) iv data,
        len data + 16 - len data mod 16),
   World (rand w)
     (calls w ++ [call_EVP_EncryptInit_ex; call_EVP_EncryptUpdate;
                  call_EVP_EncryptFinal_ex])).
Proof.
  intros HP Hiv.
  assert (H0 : 0 <= len data) by (unfold len; lia).
  pose proof (Z.mod_pos_bound (len data) 16) as Hmod.
  assert (HL : len data <= INT_MAX) by lia.
  destruct (total_fits (len data + 16 - len data mod 16))
    as (Ht & Hs & Ha); [lia|].
  destruct (EVP_encrypt_spec key iv data (len data) H0)
    as (out1 & ctx1 & out2 & Hu & Hf & Hout).
  unfold EVP_EncryptInit_ex, EVP_CipherInit in Hu. cbn [snd] in Hu.
  unfold len in Hout at 1.
  rewrite Nat2Z.id, (take_ge data), (take_ge iv) in Hout by lia.
  unfold encryptWithAES. run_monad.
  unfold EVP_EncryptInit_ex, EVP_CipherInit, AES_BLOCK_SIZE.
  cbn [negb Z.eqb Pos.eqb].
  rewrite Ha. cbn [rand calls].
  rewrite to_int_small by lia. rewrite Hu. cbn [negb Z.eqb Pos.eqb].
  rewrite Hf. cbn [negb Z.eqb Pos.eqb].
  assert (Hlen : len out1 + len out2
                 = len data + 16 - len data mod 16).
  { rewrite <- len_aes_cbc_encrypt with (key := take 32 key) (iv := iv)
      by assumption.
    rewrite <- Hout. unfold len. rewrite length_app. lia. }
  rewrite to_int_add_l, Hlen, Ht, Z.eqb_refl.
  cbn [negb rand calls].
  rewrite Hout, Hs, <- !app_assoc. reflexivity.
Qed.

(** When the padded size does not fit an [int], nothing is returned: a
    size above [PTRDIFF_MAX] is not allocated, and below that either the
    length does not survive the conversion to the [int] that
    [EVP_EncryptUpdate] takes or the sum of the lengths written wraps
    around, and the size check throws. *)
Lemma encryptWithAES_throws (data key iv : bytes) (w : world) :
  len data < 2 ^ 64 -> length iv = 16%nat ->
  INT_MAX < len data + 16 - len data mod 16 ->
  fst (encryptWithAES data (len data) key iv w)
  = Throw (if to_size_t (len data + 16 - len data mod 16) <=? PTRDIFF_MAX
           then runtime_error "Failed to encrypt data" else bad_alloc).
Proof.
  intros H64 Hiv Hbig.
  assert (H0 : 0 <= len data) by (unfold len; lia).
  unfold encryptWithAES. run_monad.
  unfold EVP_EncryptInit_ex, EVP_CipherInit, AES_BLOCK_SIZE.
  cbn [negb Z.eqb Pos.eqb rand calls].
  set (E := to_size_t (len data + 16 - len data mod 16)).
  destruct (PTRDIFF_MAX <? E) eqn:Ha.
  { destruct (E <=? PTRDIFF_MAX) eqn:Hb; [lia|reflexivity]. }
  destruct (E <=? PTRDIFF_MAX) eqn:Hb; [|lia].
  destruct (Z.lt_ge_cases (to_int (len data)) 0) as [Hneg|Hpos].
  - unfold EVP_EncryptUpdate.
    destruct (to_int (len data) <=? 0) eqn:E1; [|lia].
    destruct (to_int (len data) =? 0) eqn:E2; [lia|].
    reflexivity.
  - destruct (EVP_encrypt_spec key iv data _ Hpos)
      as (out1 & ctx1 & out2 & Hu & Hf & Hout).
    unfold EVP_EncryptInit_ex, EVP_CipherInit in Hu. cbn [snd] in Hu.
    rewrite Hu. cbn [negb Z.eqb Pos.eqb].
    rewrite Hf. cbn [negb Z.eqb Pos.eqb].
    assert (Hlen : len out1 + len out2
                   = to_int (len data) + 16 - to_int (len data) mod 16).
    { transitivity (len (out1 ++ out2));
        [unfold len; rewrite length_app; lia|].
      rewrite Hout, len_aes_cbc_encrypt
        by (rewrite length_take_le; lia).
      pose proof (to_int_le _ H0).
      unfold len at 1 3. rewrite length_take_le by (unfold len in *; lia).
      rewrite Z2Nat.id by lia. reflexivity. }
    rewrite to_int_add_l, Hlen.
    destruct (_ =? _) eqn:Eq; [|reflexivity].
    apply Z.eqb_eq in Eq. apply total_wraps in Eq; [contradiction|lia..].
Qed.

Lemma encryptWithAES_inv (data key iv : bytes) (w w' : world) r :
  len data < 2 ^ 64 -> length iv = 16%nat ->
  encryptWithAES data (len data) key iv w = (Ret r, w') ->
  len data + 16 - len data mod 16 <= INT_MAX.
Proof.
  intros H64 Hiv Hrun.
  destruct (Z.le_gt_cases (len data + 16 - len data mod 16) INT_MAX)
    as [|Hbig]; [assumption|].
  exfalso.
  pose proof (encryptWithAES_throws data key iv w H64 Hiv Hbig) as Hthrow.
  rewrite Hrun in Hthrow. discriminate.
Qed.

Lemma generateRandomKey_inv (w w' : world) key :
  generateRandomKey w = (Ret key, w') ->
  exists s, RAND_bytes 32 (rand w) = (Some key, s)
            /\ w' = World s (calls w ++ [call_RAND_bytes]).
Proof.
  unfold generateRandomKey. run_monad.
  change (Z.to_nat AES_256_KEY_LENGTH_BYTES) with 32%nat.
  destruct (RAND_bytes 32 (rand w)) as [[k|] s]; intros H; inversion H.
  subst. eauto.
Qed.

Lemma generateRandomIv_inv (w w' : world) iv :
  generateRandomIv w = (Ret iv, w') ->
  exists s, RAND_bytes 16 (rand w) = (Some iv, s)
            /\ w' = World s (calls w ++ [call_RAND_bytes]).
Proof.
  unfold generateRandomIv. run_monad.
  change (Z.to_nat AES_256_IV_LENGTH_BYTES) with 16%nat.
  destruct (RAND_bytes 16 (rand w)) as [[k|] s]; intros H; inversion H.
  subst. eauto.
Qed.

Lemma encryptWithRsa_inv (data : bytes) (pub : string) (w w' : world) r :
  encryptWithRsa data (len data) pub w = (Ret r, w') ->
  exists k c s,
    PEM_read_bio_RSA_PUBKEY pub = Some k
    /\ RSA_public_encrypt data k (rand w) = (Some c, s)
    /\ len c = RSA_size k
    /\ r = (c, RSA_size k)
    /\ w' = World s (calls w ++ [call_BIO_new_mem_buf;
                                 call_PEM_read_bio_RSA_PUBKEY;
                                 call_RSA_size; call_RSA_public_encrypt]).
Proof.
  unfold encryptWithRsa. run_monad.
  destruct (PEM_read_bio_RSA_PUBKEY pub) as [k|]; [|discriminate].
  cbn [rand calls].
  unfold len at 1. rewrite Nat2Z.id, take_ge by lia.
  destruct (RSA_public_encrypt data k (rand w)) as [[c|] s] eqn:Henc;
    cbn [rand calls default orb negb Z.eqb]; [|discriminate].
  destruct (len c =? -1) eqn:E1; [cbn; discriminate|].
  destruct (len c =? RSA_size k) eqn:E2; cbn [orb negb]; [|discriminate].
  intros H. inversion H; subst. apply Z.eqb_eq in E2.
  exists k, c, s. rewrite <- !app_assoc. repeat split; auto.
Qed.

(** Every envelope [createEncryptedMessage] returns, taken apart. *)
Lemma createEncryptedMessage_inv (data : bytes) (pub : string)
    (w w' : world) (env : bytes) :
  len data < 2 ^ 64 ->
  createEncryptedMessage data (len data) pub w = (Ret env, w') ->
  exists key iv k wk s1 s2,
    RAND_bytes 32 (rand w) = (Some key, s1)
    /\ RAND_bytes 16 s1 = (Some iv, s2)
    /\ PEM_read_bio_RSA_PUBKEY pub = Some k
    /\ RSA_public_encrypt key k s2 = (Some wk, rand w')
    /\ length key = 32%nat /\ length iv = 16%nat
    /\ len wk = RSA_size k
    /\ len data <= INT_MAX
    /\ env = ENCR_MARKER ++ wk ++ iv ++ aes_cbc_encrypt key iv data.
Proof.
  intros H64. unfold createEncryptedMessage, mbind, M_bind.
  destruct (generateRandomKey w) as [[key| |] w1] eqn:Hkey; try discriminate.
  destruct (generateRandomIv w1) as [[iv| |] w2] eqn:Hiv; try discriminate.
  apply generateRandomKey_inv in Hkey as (s1 & Hkey & ->).
  apply generateRandomIv_inv in Hiv as (s2 & Hiv & ->).
  cbn [rand calls] in *.
  pose proof (RAND_bytes_length _ _ _ _ Hkey) as Lkey.
  pose proof (RAND_bytes_length _ _ _ _ Hiv) as Liv.
  destruct (encryptWithAES data (len data) key iv _)
    as [[[msg msgSize]| |] w3] eqn:Haes; try discriminate.
  pose proof (encryptWithAES_inv _ _ _ _ _ _ H64 Liv Haes) as Hmax.
  rewrite encryptWithAES_ok in Haes by assumption.
  inversion Haes; subst msg msgSize w3; clear Haes.
  replace AES_256_KEY_LENGTH_BYTES with (len key)
    by (unfold len; rewrite Lkey; reflexivity).
  destruct (encryptWithRsa key (len key) pub _)
    as [[[wk wkSize]| |] w4] eqn:Hrsa; try discriminate.
  apply encryptWithRsa_inv in Hrsa as (k & c & s3 & Hpub & Henc & Hc & E & ->).
  inversion E; subst wk wkSize; clear E.
  cbn [rand calls] in *. unfold mret, M_ret. intros H. inversion H; subst.
  exists key, iv, k, c, s1, s2. cbn [rand].
  repeat split; try assumption;
    [pose proof (Z.mod_pos_bound (len data) 16); lia|].
  rewrite (take_ge key) by lia.
  rewrite <- Hc. unfold len at 1. rewrite Nat2Z.id.
  rewrite <- (len_aes_cbc_encrypt key iv data) by assumption.
  unfold len at 1. rewrite Nat2Z.id.
  change (Z.to_nat AES_256_IV_LENGTH_BYTES) with 16%nat.
  rewrite !take_ge by lia. reflexivity.
Qed.

(** It does return one whenever the generator delivers, the key parses, the
    RSA encryption yields a block of the modulus length and the padded
    length of the plaintext fits an [int]. *)
Lemma createEncryptedMessage_ok (data : bytes) (pub : string) (w : world)
    key iv k wk s1 s2 s3 :
  RAND_bytes 32 (rand w) = (Some key, s1) ->
  RAND_bytes 16 s1 = (Some iv, s2) ->
  PEM_read_bio_RSA_PUBKEY pub = Some k ->
  RSA_public_encrypt key k s2 = (Some wk, s3) ->
  len wk = RSA_size k ->
  len data + 16 - len data mod 16 <= INT_MAX ->
  fst (createEncryptedMessage data (len data) pub w)
  = Ret (ENCR_MARKER ++ wk ++ iv ++ aes_cbc_encrypt key iv data).
Proof.
  intros Hkey Hiv Hpub Henc Hwk Hmax.
  pose proof (RAND_bytes_length _ _ _ _ Hkey) as Lkey.
  pose proof (RAND_bytes_length _ _ _ _ Hiv) as Liv.
  unfold createEncryptedMessage, mbind, M_bind.
  unfold generateRandomKey, generateRandomIv. run_monad.
  change (Z.to_nat AES_256_KEY_LENGTH_BYTES) with 32%nat.
  change (Z.to_nat AES_256_IV_LENGTH_BYTES) with 16%nat.
  rewrite Hkey. cbn [rand calls]. rewrite Hiv.
  rewrite encryptWithAES_ok by assumption.
  unfold encryptWithRsa. run_monad. rewrite Hpub. cbn [rand calls].
  change (Z.to_nat AES_256_KEY_LENGTH_BYTES) with 32%nat.
  rewrite (take_ge key) by lia. rewrite Henc.
  cbn [default fst]. rewrite Hwk.
  assert (E1 : (RSA_size k =? -1) = false) by (unfold len in Hwk; lia).
  rewrite E1, Z.eqb_refl. cbn [orb negb fst].
  rewrite <- Hwk. unfold len at 1. rewrite Nat2Z.id.
  rewrite <- (len_aes_cbc_encrypt key iv data) by assumption.
  unfold len at 1. rewrite Nat2Z.id. unfold id.
  rewrite !take_ge by lia. reflexivity.
Qed.

(** Decrypting what the EVP layer encrypted gives the data back. *)
Lemma decryptedBuffer_encrypt (key iv data : bytes) (w : world) :
  length key = 32%nat -> length iv = 16%nat ->
  decryptedBuffer (aes_cbc_encrypt key iv data)
                  (len (aes_cbc_encrypt key iv data)) key iv w
  = (Ret data,
     World (rand w)
       (calls w ++ [call_EVP_DecryptInit_ex; call_EVP_DecryptUpdate;
                    call_EVP_DecryptFinal_ex])).
Proof.
  intros Hk Hiv.
  destruct (EVP_decrypt_spec key iv data Hk Hiv) as (out1 & ctx1 & Hu & Hf & Ho).
  unfold EVP_DecryptInit_ex, EVP_CipherInit in Hu. cbn [snd] in Hu.
  pose proof (len_aes_cbc_encrypt key iv data Hiv) as HL.
  pose proof (Z.mod_pos_bound (len data) 16 ltac:(lia)) as Hm.
  assert (H0 : 0 <= len data) by (unfold len; lia).
  unfold decryptedBuffer.
  destruct (len (aes_cbc_encrypt key iv data) <=? 0) eqn:E1; [lia|].
  assert (E2 : Z.rem (len (aes_cbc_encrypt key iv data)) AES_BLOCK_SIZE = 0).
  { rewrite Z.rem_mod_nonneg by (unfold AES_BLOCK_SIZE; lia).
    unfold AES_BLOCK_SIZE. rewrite HL.
    pose proof (Z.div_mod (len data) 16 ltac:(lia)).
    replace (len data + 16 - len data mod 16)
      with ((len data / 16 + 1) * 16) by lia.
    apply Z.mod_mul. lia. }
  rewrite E2. cbn [orb negb Z.eqb].
  run_monad. unfold EVP_DecryptInit_ex, EVP_CipherInit.
  cbn [negb Z.eqb Pos.eqb].
  rewrite Hu. cbn [negb Z.eqb Pos.eqb]. rewrite Hf.
  cbn [negb Z.eqb Pos.eqb rand calls]. subst out1.
  rewrite take_drop.
  replace (len (take _ data) + len (drop _ data)) with (len data).
  2:{ unfold len. rewrite <- Nat2Z.inj_add, <- length_app, take_drop.
      reflexivity. }
  unfold len. rewrite Nat2Z.id, take_ge by lia.
  rewrite <- !app_assoc. reflexivity.
Qed.

(** [createDecryptedMessage] on a buffer that starts with the marker, under
    a key that parses: up to the symmetric decryption. *)
Lemma createDecryptedMessage_marked (rest : bytes) (priv : string) k
    (w : world) :
  PEM_read_bio_RSAPrivateKey priv = Some k ->
  len (ENCR_MARKER ++ rest) <= INT_MAX ->
  let wk := take (Z.to_nat (RSA_size k)) rest in
  let w1 := World (rand w)
              (calls w ++ [call_BIO_new_mem_buf;
                           call_PEM_read_bio_RSAPrivateKey; call_RSA_size]) in
  let w2 := World (rand w) (calls w1 ++ [call_RSA_private_decrypt]) in
  createDecryptedMessage (ENCR_MARKER ++ rest) (len (ENCR_MARKER ++ rest))
                         priv w
  = if len rest <? RSA_size k
    then (Throw (runtime_error "Failed to decrypt message"), w1)
    else match RSA_private_decrypt wk k with
         | None => (Throw (runtime_error "Failed to decrypt message"), w2)
         | Some d =>
             if negb (len d =? 32)
             then (Throw (runtime_error "Failed to decrypt message"), w2)
             else if len rest - RSA_size k <? 16
             then (Throw (runtime_error "Failed to decrypt message"), w2)
             else decryptData
                    (drop 16 (drop (Z.to_nat (RSA_size k)) rest))
                    (len rest - RSA_size k - 16) d
                    (take 16 (drop (Z.to_nat (RSA_size k)) rest)) w2
         end.
Proof.
  intros Hpriv Hint wk w1 w2.
  unfold createDecryptedMessage, checkMessageMarker, mbind at 1, M_bind at 1.
  assert (Hlen : len (ENCR_MARKER ++ rest) = 8 + len rest).
  { unfold len. rewrite length_app. cbn [length ENCR_MARKER
      list_ascii_of_string]. lia. }
  rewrite Hlen in Hint |- *. unfold ENCR_MARKER_SIZE.
  assert (H0 : 0 <= len rest) by (unfold len; lia).
  destruct (8 + len rest <? 8) eqn:E8; [lia|].
  change (Z.to_nat 8) with (length ENCR_MARKER).
  rewrite take_app_length, drop_app_length.
  unfold bytes_eqb. rewrite bool_decide_eq_true_2 by reflexivity.
  cbn [orb negb]. unfold throw, mret at 1, M_ret at 1.
  replace (8 + len rest - 8) with (len rest) by lia.
  unfold mbind at 1, M_bind at 1.
  unfold decryptKey. run_monad. rewrite Hpriv. cbn [rand calls].
  rewrite <- !app_assoc. cbn [app]. fold w1.
  destruct (len rest <? RSA_size k) eqn:E1; [reflexivity|].
  fold wk. change (World (rand w) (calls w ++ _)) with w2.
  destruct (RSA_private_decrypt wk k) as [d|]; cbn [orb negb Z.eqb];
    [|reflexivity].
  assert (Hd0 : 0 <= len d) by (unfold len; lia).
  destruct (len d =? -1) eqn:Em; [lia|]. cbn [orb].
  unfold AES_256_KEY_LENGTH_BYTES, AES_256_KEY_LENGTH.
  change (256 / 8) with 32.
  destruct (len d =? 32) eqn:E32; cbn [negb]; [|reflexivity].
  unfold readIv, AES_256_IV_LENGTH_BYTES. unfold to_size_t.
  rewrite Z.mod_small.
  2:{ pose proof (RSA_size_nonneg k). unfold INT_MAX in Hint. lia. }
  destruct (len rest - RSA_size k <? 16) eqn:E16; [reflexivity|].
  cbn [default]. unfold id.
  rewrite (take_ge d) by (unfold len in E32; lia).
  reflexivity.
Qed.

(** ** Generated keypairs *)

(** [generateKeysPair] returns true only when the key was generated and
    both writers returned 1; the texts are then what they wrote. *)
Lemma generateKeysPair_true (w w' : world) (pub priv : string) :
  generateKeysPair w = (Ret (true, pub, priv), w') ->
  exists k,
    RSA_generate_key_ex 2048 RSA_F4 (rand w) = (Some k, rand w')
    /\ PEM_write_bio_PUBKEY k = Some pub
    /\ PEM_write_bio_RSAPrivateKey k = Some priv.
Proof.
  unfold generateKeysPair, text_of_bio, written_bio. run_monad.
  destruct (RSA_generate_key_ex 2048 RSA_F4 (rand w)) as [[k|] s] eqn:Hgen;
    cbn [rand calls].
  - destruct (PEM_write_bio_PUBKEY k) as [t1|] eqn:Hw1; cbn [rand calls].
    + destruct (PEM_write_bio_RSAPrivateKey k) as [t2|] eqn:Hw2;
        cbn [rand calls]; intros H; inversion H; subst.
      exists k. auto.
    + destruct (PTRDIFF_MAX <? _); [discriminate|].
      destruct (_ =? 0); discriminate.
  - destruct (PTRDIFF_MAX <? _); [discriminate|].
    destruct (_ =? 0); discriminate.
Qed.

Lemma fresh_keypair_keys (pub priv : string) :
  fresh_keypair pub priv ->
  exists k, RSA_check_key k = true /\ RSA_size k = 256
            /\ PEM_read_bio_RSA_PUBKEY pub = Some (RSAPublicKey_dup k)
            /\ PEM_read_bio_RSAPrivateKey priv = Some k.
Proof.
  intros (w & w' & H).
  apply generateKeysPair_true in H as (k & Hgen & Hw1 & Hw2).
  apply RSA_generate_key_ex_ok in Hgen as [Hok Hsize].
  destruct (PEM_PUBKEY_read_write k Hok) as (t1 & Hw1' & Hr1).
  destruct (PEM_RSAPrivateKey_read_write k Hok) as (t2 & Hw2' & Hr2).
  exists k. repeat split; try assumption; congruence.
Qed.

(** ** Decrypting an envelope of [createEncryptedMessage] *)

Lemma decrypt_encrypt (p : bytes) (pub priv : string)
    (w w' w2 : world) (env : bytes) :
  fresh_keypair pub priv ->
  len p < 2 ^ 64 ->
  createEncryptedMessage p (len p) pub w = (Ret env, w') ->
  len env <= INT_MAX ->
  fst (createDecryptedMessage env (len env) priv w2)
  = if len p <? 3 then Undefined
    else if bytes_eqb (take 3 p) MSG_RECOGNIZE_TAG then Ret (drop 3 p)
    else Throw (runtime_error "Failed to decrypt message").
Proof.
  intros Hfresh H64 Henc Hint.
  destruct (fresh_keypair_keys _ _ Hfresh) as (k & Hok & Hsize & Hpub & Hpriv).
  destruct (createEncryptedMessage_inv _ _ _ _ _ H64 Henc)
    as (key & iv & k' & wk & s1 & s2
        & Hkey & Hiv & Hpub' & Hrsa & Lkey & Liv & Lwk & Hmax & ->).
  rewrite Hpub in Hpub'. inversion Hpub'; subst k'; clear Hpub'.
  rewrite RSAPublicKey_dup_size in Lwk.
  apply (RSA_private_decrypt_encrypt _ _ _ _ _ Hok) in Hrsa.
  rewrite createDecryptedMessage_marked with (k := k) by assumption.
  assert (Hwk : Z.to_nat (RSA_size k) = length wk)
    by (unfold len in Lwk; lia).
  rewrite Hwk, take_app_length, drop_app_length, Hrsa.
  rewrite take_app_length', drop_app_length' by congruence.
  pose proof (len_aes_cbc_encrypt key iv p Liv) as Hc.
  pose proof (Z.mod_pos_bound (len p) 16 ltac:(lia)) as Hm.
  assert (Hrest : len (wk ++ iv ++ aes_cbc_encrypt key iv p)
                  = RSA_size k + 16 + len (aes_cbc_encrypt key iv p)).
  { unfold len in *. rewrite !length_app. lia. }
  assert (H0 : 0 <= len p) by (unfold len; lia).
  rewrite Hrest.
  destruct (_ <? RSA_size k) eqn:E1; [lia|].
  assert (E32 : (len key =? 32) = true) by (unfold len; lia).
  rewrite E32. cbn [negb].
  destruct (_ <? 16) eqn:E2; [lia|].
  replace (RSA_size k + 16 + len (aes_cbc_encrypt key iv p) - RSA_size k - 16)
    with (len (aes_cbc_encrypt key iv p)) by lia.
  unfold decryptData, mbind, M_bind.
  rewrite decryptedBuffer_encrypt by assumption.
  change (len MSG_RECOGNIZE_TAG) with 3.
  change (length MSG_RECOGNIZE_TAG) with 3%nat.
  destruct (len p <? 3); [reflexivity|].
  destruct (bytes_eqb (take 3 p) MSG_RECOGNIZE_TAG); reflexivity.
Qed.

Lemma len_tagged (p : bytes) : len (MSG_RECOGNIZE_TAG ++ p) = 3 + len p.
Proof. unfold len. rewrite length_app. cbn [length MSG_RECOGNIZE_TAG
  list_ascii_of_string]. lia. Qed.

(** C1 (amended): for every plaintext [p], the zero-length one included, and
    every freshly generated keypair, decrypting the envelope that
    [createEncryptedMessage] returned for [MSG_RECOGNIZE_TAG ++ p] returns
    exactly [p].  The tag is the caller's to prepend: encryption does not
    add it, decryption checks and strips it. *)
Theorem roundtrip_with_tag (p : bytes) (pub priv : string)
    (w w' w2 : world) (env : bytes) :
  fresh_keypair pub priv ->
  len (MSG_RECOGNIZE_TAG ++ p) < 2 ^ 64 ->
  createEncryptedMessage (MSG_RECOGNIZE_TAG ++ p)
    (len (MSG_RECOGNIZE_TAG ++ p)) pub w = (Ret env, w') ->
  len env <= INT_MAX ->
  fst (createDecryptedMessage env (len env) priv w2) = Ret p.
Proof.
  intros Hfresh H64 Henc Hint.
  rewrite (decrypt_encrypt _ _ _ _ _ _ _ Hfresh H64 Henc Hint).
  rewrite len_tagged.
  assert (0 <= len p) by (unfold len; lia).
  destruct (3 + len p <? 3) eqn:E; [lia|].
  change 3%nat with (length MSG_RECOGNIZE_TAG).
  rewrite take_app_length, drop_app_length.
  unfold bytes_eqb. rewrite bool_decide_eq_true_2 by reflexivity.
  reflexivity.
Qed.

(** C2 (amended): [createEncryptedMessage] symmetric-encrypts the caller's
    data as it is given, without prepending the recognition tag: the
    CBC-decrypted ciphertext of every envelope it returns is exactly that
    data, so its first three bytes are the tag only when the caller's data
    starts with the tag. *)
Theorem ciphertext_is_data_as_given (data : bytes) (pub : string)
    (w w' w2 : world) (env : bytes) :
  len data < 2 ^ 64 ->
  createEncryptedMessage data (len data) pub w = (Ret env, w') ->
  exists key iv k s1 s2,
    RAND_bytes 32 (rand w) = (Some key, s1)
    /\ RAND_bytes 16 s1 = (Some iv, s2)
    /\ PEM_read_bio_RSA_PUBKEY pub = Some k
    /\ let c := drop (Z.to_nat (8 + RSA_size k + 16)) env in
       fst (decryptedBuffer c (len c) key iv w2) = Ret data.
Proof.
  intros H64 Henc.
  destruct (createEncryptedMessage_inv _ _ _ _ _ H64 Henc)
    as (key & iv & k & wk & s1 & s2
        & Hkey & Hiv & Hpub & Hrsa & Lkey & Liv & Lwk & Hmax & ->).
  exists key, iv, k, s1, s2. repeat split; try assumption.
  cbv zeta.
  replace (drop _ _) with (aes_cbc_encrypt key iv data).
  - rewrite decryptedBuffer_encrypt by assumption. reflexivity.
  - symmetry. rewrite !app_assoc. apply drop_app_length'.
    rewrite !length_app, Liv. unfold len in Lwk.
    cbn [length ENCR_MARKER list_ascii_of_string]. lia.
Qed.

(** C3: for every plaintext and parsable public key, the envelope returned
    by [createEncryptedMessage] is the 8-byte marker "MESSAGE:", then the
    RSA-OAEP-wrapped session key of exactly [RSA_size] bytes, then the
    16-byte IV, then the ciphertext of the data under that key and IV, whose
    length is a non-zero multiple of 16; its total length is
    8 + modulus bytes + 16 + ciphertext length. *)
Theorem envelope_layout (data : bytes) (pub : string) (k : RSA)
    (w w' : world) (env : bytes) :
  PEM_read_bio_RSA_PUBKEY pub = Some k ->
  len data < 2 ^ 64 ->
  createEncryptedMessage data (len data) pub w = (Ret env, w') ->
  exists wrapped_key iv ciphertext,
    env = list_ascii_of_string "MESSAGE:" ++ wrapped_key ++ iv ++ ciphertext
    /\ (exists key s s', length key = 32%nat
          /\ RSA_public_encrypt key k s = (Some wrapped_key, s')
          /\ ciphertext = aes_cbc_encrypt key iv data)
    /\ len wrapped_key = RSA_size k
    /\ len iv = 16
    /\ 0 < len ciphertext /\ len ciphertext mod 16 = 0
    /\ len env = 8 + RSA_size k + 16 + len ciphertext.
Proof.
  intros Hpub H64 Henc.
  destruct (createEncryptedMessage_inv _ _ _ _ _ H64 Henc)
    as (key & iv & k' & wk & s1 & s2
        & Hkey & Hiv & Hpub' & Hrsa & Lkey & Liv & Lwk & Hmax & ->).
  rewrite Hpub in Hpub'. inversion Hpub'; subst k'; clear Hpub'.
  exists wk, iv, (aes_cbc_encrypt key iv data).
  pose proof (len_aes_cbc_encrypt key iv data Liv) as Hc.
  pose proof (Z.mod_pos_bound (len data) 16 ltac:(lia)) as Hm.
  pose proof (Z.div_mod (len data) 16 ltac:(lia)) as Hdm.
  assert (H0 : 0 <= len data) by (unfold len; lia).
  split; [reflexivity|].
  split; [exists key, s2, (rand w'); auto|]. split; [assumption|].
  split; [unfold len; lia|]. split; [lia|]. split.
  - rewrite Hc.
    replace (len data + 16 - len data mod 16)
      with ((len data / 16 + 1) * 16) by lia.
    apply Z.mod_mul. lia.
  - unfold len in *. rewrite !length_app.
    cbn [length ENCR_MARKER list_ascii_of_string]. lia.
Qed.

(** The length of an envelope made for a freshly generated key. *)
Lemma fresh_envelope_length (p : bytes) (pub priv : string)
    (w w' : world) (env : bytes) :
  fresh_keypair pub priv ->
  len p < 2 ^ 64 ->
  createEncryptedMessage p (len p) pub w = (Ret env, w') ->
  len env = 8 + 256 + 16 + (len p + 16 - len p mod 16).
Proof.
  intros Hfresh H64 Henc.
  destruct (fresh_keypair_keys _ _ Hfresh) as (k & Hok & Hsize & Hpub & Hpriv).
  destruct (createEncryptedMessage_inv _ _ _ _ _ H64 Henc)
    as (key & iv & k' & wk & s1 & s2
        & _ & _ & Hpub' & _ & _ & Liv & Lwk & _ & ->).
  rewrite Hpub in Hpub'. inversion Hpub'; subst k'.
  rewrite RSAPublicKey_dup_size, Hsize in Lwk.
  rewrite <- (len_aes_cbc_encrypt key iv p Liv).
  unfold len in *. rewrite !length_app.
  cbn [length ENCR_MARKER list_ascii_of_string]. lia.
Qed.

(** C9 (amended): with a freshly generated (2048-bit) keypair the envelope
    for the 11 bytes "hello world" is 8 + 256 + 16 + 16 = 296 bytes long,
    the 11 plaintext bytes padding to one block, and decrypting it throws,
    since no tag was prepended; the envelope for the 14 bytes
    "MSGhello world" is 296 bytes long as well, and decrypting it returns
    exactly "hello world". *)
Theorem hello_world_scenario (pub priv : string)
    (w1 w1' w2 w2' w3 : world) (env1 env2 : bytes) :
  fresh_keypair pub priv ->
  createEncryptedMessage hello_world 11 pub w1 = (Ret env1, w1') ->
  createEncryptedMessage (MSG_RECOGNIZE_TAG ++ hello_world) 14 pub w2
    = (Ret env2, w2') ->
  (len env1 = 296
   /\ fst (createDecryptedMessage env1 296 priv w3)
      = Throw (runtime_error "Failed to decrypt message"))
  /\ (len env2 = 296
      /\ fst (createDecryptedMessage env2 296 priv w3) = Ret hello_world).
Proof.
  intros Hfresh H1 H2.
  assert (L1 : len env1 = 296)
    by exact (fresh_envelope_length hello_world _ _ _ _ _ Hfresh
                ltac:(reflexivity) H1).
  assert (L2 : len env2 = 296)
    by exact (fresh_envelope_length (MSG_RECOGNIZE_TAG ++ hello_world)
                _ _ _ _ _ Hfresh ltac:(reflexivity) H2).
  split; split; try assumption.
  - rewrite <- L1.
    rewrite (decrypt_encrypt hello_world _ _ _ _ w3 _ Hfresh
               ltac:(reflexivity) H1) by (rewrite L1; discriminate).
    reflexivity.
  - rewrite <- L2.
    rewrite (decrypt_encrypt (MSG_RECOGNIZE_TAG ++ hello_world) _ _ _ _ w3 _
               Hfresh ltac:(reflexivity) H2) by (rewrite L2; discriminate).
    reflexivity.
Qed.

(** C10 (what the code does): when CBC decryption and padding removal
    succeed on the encryption of fewer than three bytes, the decrypted
    buffer holds those fewer than three bytes, and the recognition-tag
    comparison of [decryptData] reads past its end. *)
Theorem tag_read_past_short_buffer (key iv data : bytes) (w : world) :
  length key = 32%nat -> length iv = 16%nat -> len data < 3 ->
  let c := aes_cbc_encrypt key iv data in
  fst (decryptedBuffer c (len c) key iv w) = Ret data
  /\ fst (decryptData c (len c) key iv w) = Undefined.
Proof.
  intros Hk Hiv Hshort c. subst c.
  unfold decryptData, mbind, M_bind.
  rewrite decryptedBuffer_encrypt by assumption.
  split; [reflexivity|].
  change (len MSG_RECOGNIZE_TAG) with 3.
  destruct (len data <? 3) eqn:E; [reflexivity|lia].
Qed.

(** ** Rejections *)

Lemma decryptedBuffer_world (c : bytes) (l : Z) (key iv : bytes) :
  exists o cs, forall w,
    decryptedBuffer c l key iv w = (o, World (rand w) (calls w ++ cs)).
Proof.
  unfold decryptedBuffer. run_monad.
  unfold EVP_DecryptInit_ex, EVP_CipherInit. cbn [negb Z.eqb Pos.eqb].
  destruct (_ || _).
  { eexists _, []. intros w. rewrite app_nil_r. destruct w; reflexivity. }
  destruct (EVP_DecryptUpdate _ c l) as [[r1 out1] ctx1].
  destruct (negb (r1 =? 1)).
  { eexists _, _. intros w. cbn [rand calls]. rewrite <- ?app_assoc.
    reflexivity. }
  destruct (EVP_DecryptFinal_ex ctx1) as [r2 out2].
  destruct (negb (r2 =? 1)).
  { eexists _, _. intros w. cbn [rand calls]. rewrite <- ?app_assoc.
    reflexivity. }
  eexists _, _. intros w. cbn [rand calls]. rewrite <- ?app_assoc.
  reflexivity.
Qed.

Lemma marked_buffer (buf : bytes) :
  take 8 buf = ENCR_MARKER -> buf = ENCR_MARKER ++ drop 8 buf.
Proof. intros H. rewrite <- H. symmetry. apply take_drop. Qed.

Lemma len_marked (rest : bytes) : len (ENCR_MARKER ++ rest) = 8 + len rest.
Proof. unfold len. rewrite length_app. cbn [length ENCR_MARKER
  list_ascii_of_string]. lia. Qed.

Lemma bad_marker_throws (buf : bytes) (priv : string) (w : world) :
  len buf < 8 \/ take 8 buf <> ENCR_MARKER ->
  createDecryptedMessage buf (len buf) priv w
  = (Throw (runtime_error "Failed to decrypt message"), w).
Proof.
  intros Hbad.
  unfold createDecryptedMessage, checkMessageMarker, mbind, M_bind.
  unfold ENCR_MARKER_SIZE. change (Z.to_nat 8) with 8%nat.
  destruct (len buf <? 8) eqn:E; [reflexivity|].
  destruct Hbad as [Hbad|Hbad]; [lia|].
  unfold bytes_eqb. rewrite bool_decide_eq_false_2 by assumption.
  reflexivity.
Qed.

Lemma truncated_throws (buf : bytes) (priv : string) (k : RSA) (w : world) :
  take 8 buf = ENCR_MARKER ->
  PEM_read_bio_RSAPrivateKey priv = Some k ->
  len buf <= INT_MAX ->
  len buf < 8 + RSA_size k + 16 ->
  fst (createDecryptedMessage buf (len buf) priv w)
  = Throw (runtime_error "Failed to decrypt message").
Proof.
  intros Hmark Hpriv Hint Hshort.
  rewrite (marked_buffer buf Hmark) in Hint, Hshort |- *.
  rewrite createDecryptedMessage_marked with (k := k) by assumption.
  rewrite len_marked in Hshort.
  destruct (_ <? RSA_size k); [reflexivity|].
  destruct (RSA_private_decrypt _ k) as [d|]; [|reflexivity].
  destruct (negb _); [reflexivity|].
  destruct (_ <? 16) eqn:E; [reflexivity|lia].
Qed.

(** Past the key recovery, [createDecryptedMessage] is [decryptData] on
    what follows the wrapped key and the IV. *)
Lemma createDecryptedMessage_key_recovered (buf : bytes) (priv : string)
    (k : RSA) (d : bytes) (w : world) :
  PEM_read_bio_RSAPrivateKey priv = Some k ->
  len buf <= INT_MAX ->
  take 8 buf = ENCR_MARKER ->
  8 + RSA_size k + 16 <= len buf ->
  RSA_private_decrypt (take (Z.to_nat (RSA_size k)) (drop 8 buf)) k = Some d ->
  len d = 32 ->
  createDecryptedMessage buf (len buf) priv w
  = decryptData
      (drop 16 (drop (Z.to_nat (RSA_size k)) (drop 8 buf)))
      (len (drop 16 (drop (Z.to_nat (RSA_size k)) (drop 8 buf))))
      d (take 16 (drop (Z.to_nat (RSA_size k)) (drop 8 buf)))
      (after_key_recovery w).
Proof.
  intros Hpriv Hint Hmark Hlen Hd Hd32.
  pose proof (RSA_size_nonneg k) as Hsize.
  assert (Hrest : len (drop 8 buf) = len buf - 8)
    by (unfold len in *; rewrite length_drop; lia).
  rewrite (marked_buffer buf Hmark) in Hint |- * at 1 2.
  rewrite createDecryptedMessage_marked with (k := k) by assumption.
  destruct (_ <? RSA_size k) eqn:E1; [lia|].
  rewrite Hd, Hd32. cbn [negb Z.eqb Pos.eqb].
  destruct (_ <? 16) eqn:E2; [lia|].
  unfold after_key_recovery. cbn [rand calls]. rewrite <- !app_assoc.
  f_equal. unfold len in *. rewrite !length_drop in *. lia.
Qed.

(** C6: a buffer that does not start with the 8-byte marker, any buffer
    shorter than 8 bytes included, is rejected with the module's exception
    for a failed decryption before any call into the cryptographic library
    (the world, and with it the log of calls, is unchanged); an envelope
    shorter than marker + modulus bytes + 16 is rejected with the same
    exception.  Neither returns any output. *)
Theorem malformed_envelope_rejected (buf : bytes) (priv : string) (w : world) :
  (len buf < 8 \/ take 8 buf <> ENCR_MARKER ->
   createDecryptedMessage buf (len buf) priv w
   = (Throw (runtime_error "Failed to decrypt message"), w))
  /\ (forall k,
        take 8 buf = ENCR_MARKER ->
        PEM_read_bio_RSAPrivateKey priv = Some k ->
        len buf <= INT_MAX ->
        len buf < 8 + RSA_size k + 16 ->
        fst (createDecryptedMessage buf (len buf) priv w)
        = Throw (runtime_error "Failed to decrypt message")).
Proof.
  split.
  - intros Hbad. apply bad_marker_throws. exact Hbad.
  - intros k Hmark Hpriv Hint Hshort.
    apply truncated_throws with (k := k); assumption.
Qed.

(** C7 (amended): whatever makes decryption give up, be it a bad marker, a
    truncated envelope, a misaligned ciphertext, an OAEP decoding failure,
    a recovered key that is not 32 bytes long, a padding failure or a
    recognition-tag mismatch, [createDecryptedMessage] throws one and the
    same exception, [std::runtime_error("Failed to decrypt message")]; the
    failure carries no kind by which a caller could tell the causes
    apart. *)
Theorem decryption_failures_throw_alike (f : failure) (k : RSA)
    (buf : bytes) (priv : string) (w : world) :
  PEM_read_bio_RSAPrivateKey priv = Some k ->
  len buf <= INT_MAX ->
  envelope_fails k buf f ->
  fst (createDecryptedMessage buf (len buf) priv w)
  = Throw (runtime_error "Failed to decrypt message").
Proof.
  intros Hpriv Hint Hf.
  pose proof (RSA_size_nonneg k) as Hsize.
  assert (Hrec : forall d,
    take 8 buf = ENCR_MARKER /\ 8 + RSA_size k + 16 <= len buf
    /\ RSA_private_decrypt (take (Z.to_nat (RSA_size k)) (drop 8 buf)) k
       = Some d /\ len d = 32 ->
    fst (createDecryptedMessage buf (len buf) priv w)
    = fst (decryptData
             (drop 16 (drop (Z.to_nat (RSA_size k)) (drop 8 buf)))
             (len (drop 16 (drop (Z.to_nat (RSA_size k)) (drop 8 buf))))
             d (take 16 (drop (Z.to_nat (RSA_size k)) (drop 8 buf)))
             (after_key_recovery w))).
  { intros d (Hmark & Hlen & Hd & Hd32). f_equal.
    apply createDecryptedMessage_key_recovered; assumption. }
  destruct f; cbn [envelope_fails] in Hf.
  - (* bad marker *)
    rewrite (bad_marker_throws buf priv w Hf). reflexivity.
  - (* truncated *)
    destruct Hf as [Hmark Hshort].
    apply truncated_throws with (k := k); assumption.
  - (* misaligned *)
    destruct Hf as (d & Hd & Hmis). rewrite (Hrec d Hd).
    unfold decryptData, decryptedBuffer, mbind, M_bind.
    set (c := drop 16 _) in *.
    assert (0 <= len c) by (unfold len; lia).
    destruct (len c <=? 0) eqn:E0; [reflexivity|].
    destruct Hmis as [Hmis|Hmis]; [lia|].
    rewrite Z.rem_mod_nonneg by (unfold AES_BLOCK_SIZE; lia).
    unfold AES_BLOCK_SIZE.
    destruct (len c mod 16 =? 0) eqn:E1; [lia|]. reflexivity.
  - (* OAEP failure *)
    destruct Hf as (Hmark & Hlen & Hnone).
    rewrite (marked_buffer buf Hmark) in Hint |- * at 1 2.
    rewrite createDecryptedMessage_marked with (k := k) by assumption.
    destruct (_ <? RSA_size k) eqn:E1; [reflexivity|].
    rewrite Hnone. reflexivity.
  - (* key length mismatch *)
    destruct Hf as (Hmark & Hlen & d & Hd & Hd32).
    rewrite (marked_buffer buf Hmark) in Hint |- * at 1 2.
    rewrite createDecryptedMessage_marked with (k := k) by assumption.
    destruct (_ <? RSA_size k) eqn:E1; [reflexivity|].
    rewrite Hd. destruct (len d =? 32) eqn:E; [lia|]. reflexivity.
  - (* padding failure *)
    destruct Hf as (d & Hd & Hpos & Hal & Hfin). rewrite (Hrec d Hd).
    set (c := drop 16 _) in *. set (iv := take 16 _) in *.
    revert Hfin.
    unfold decryptData, decryptedBuffer, mbind, M_bind, call.
    unfold EVP_DecryptInit_ex, EVP_CipherInit. cbn [snd negb Z.eqb Pos.eqb].
    destruct (_ || _); [reflexivity|]. cbn [rand calls].
    destruct (EVP_DecryptUpdate _ c (len c)) as [[r1 out1] ctx1].
    cbn [snd]. destruct (negb (r1 =? 1)); [reflexivity|].
    destruct (EVP_DecryptFinal_ex ctx1) as [r2 out2]. cbn [fst].
    intros Hfin. destruct (r2 =? 1) eqn:E; [lia|]. reflexivity.
  - (* tag mismatch *)
    destruct Hf as (d & b & w0 & Hd & Hbuf & Hb3 & Htag). rewrite (Hrec d Hd).
    set (c := drop 16 _) in *. set (iv := take 16 _) in *.
    destruct (decryptedBuffer_world c (len c) d iv) as (o & cs & Hw).
    rewrite Hw in Hbuf. cbn [fst] in Hbuf. subst o.
    unfold decryptData, mbind, M_bind. rewrite Hw.
    change (len MSG_RECOGNIZE_TAG) with 3.
    change (length MSG_RECOGNIZE_TAG) with 3%nat.
    destruct (len b <? 3) eqn:E; [lia|].
    unfold bytes_eqb. rewrite bool_decide_eq_false_2 by assumption.
    reflexivity.
Qed.

(** ** Key matching *)

Lemma BN_cmp_0 (a b : Z) : (BN_cmp a b =? 0) = true <-> a = b.
Proof.
  unfold BN_cmp. destruct (a ?= b) eqn:E; cbn.
  - apply Z.compare_eq_iff in E. tauto.
  - split; [discriminate|]. intros ->. rewrite Z.compare_refl in E.
    discriminate.
  - split; [discriminate|]. intros ->. rewrite Z.compare_refl in E.
    discriminate.
Qed.

Lemma fresh_keypair_modulus (pub priv : string) :
  fresh_keypair pub priv ->
  exists kpub kpriv,
    createPublicRSA pub = Some kpub /\ createPrivateRSA priv = Some kpriv
    /\ RSA_n kpub = RSA_n kpriv.
Proof.
  intros Hfresh.
  destruct (fresh_keypair_keys _ _ Hfresh) as (k & _ & _ & Hpub & Hpriv).
  exists (RSAPublicKey_dup k), k. repeat split; try assumption.
  apply RSAPublicKey_dup_n.
Qed.

(** C8: [matchRSAKeys] returns true exactly when both key texts parse and
    the moduli are equal; a key that does not parse gives false (the
    function returns a boolean on every input, it has no exception to
    raise); it returns true on a freshly generated keypair, and false on
    the public key of one generated pair with the private key of another
    whose modulus differs. *)
Theorem matchRSAKeys_spec :
  (forall pub priv,
     matchRSAKeys pub priv = true <->
     exists kpub kpriv,
       createPublicRSA pub = Some kpub /\ createPrivateRSA priv = Some kpriv
       /\ RSA_n kpub = RSA_n kpriv)
  /\ (forall pub priv,
        createPublicRSA pub = None \/ createPrivateRSA priv = None ->
        matchRSAKeys pub priv = false)
  /\ (forall pub priv, fresh_keypair pub priv -> matchRSAKeys pub priv = true)
  /\ (forall pub1 priv1 pub2 priv2,
        fresh_keypair pub1 priv1 -> fresh_keypair pub2 priv2 ->
        modulus_of priv1 <> modulus_of priv2 ->
        matchRSAKeys pub1 priv2 = false).
Proof.
  assert (Hiff : forall pub priv,
     matchRSAKeys pub priv = true <->
     exists kpub kpriv,
       createPublicRSA pub = Some kpub /\ createPrivateRSA priv = Some kpriv
       /\ RSA_n kpub = RSA_n kpriv).
  { intros pub priv. unfold matchRSAKeys.
    destruct (createPrivateRSA priv) as [kpriv|],
             (createPublicRSA pub) as [kpub|].
    - rewrite BN_cmp_0. split.
      + intros E. exists kpub, kpriv. auto.
      + intros (a & b & Ha & Hb & E). congruence.
    - split; [discriminate|]. intros (a & b & Ha & _). discriminate.
    - split; [discriminate|]. intros (a & b & _ & Hb & _). discriminate.
    - split; [discriminate|]. intros (a & b & Ha & _). discriminate. }
  split; [exact Hiff|]. split; [|split].
  - intros pub priv H. destruct (matchRSAKeys pub priv) eqn:E; [|reflexivity].
    apply Hiff in E as (a & b & Ha & Hb & _).
    destruct H; congruence.
  - intros pub priv Hfresh. apply Hiff.
    apply fresh_keypair_modulus. assumption.
  - intros pub1 priv1 pub2 priv2 H1 H2 Hne.
    destruct (matchRSAKeys pub1 priv2) eqn:E; [|reflexivity].
    exfalso. apply Hne.
    apply Hiff in E as (a & b & Ha & Hb & Hab).
    destruct (fresh_keypair_modulus _ _ H1) as (a1 & b1 & Ha1 & Hb1 & E1).
    unfold modulus_of. rewrite Hb1, Hb. cbn. congruence.
Qed.

(** ** Signatures *)

Lemma verifySignature_true (pub : string) (msg sig : bytes) :
  verifySignature pub msg sig = true <->
  0 < EVP_DigestVerifyInit (createPublicRSA pub)
  /\ EVP_DigestVerifyFinal (createPublicRSA pub) msg sig = 1.
Proof.
  unfold verifySignature, RSAVerifySignature.
  unfold len. rewrite Nat2Z.id, take_ge by lia.
  destruct (EVP_DigestVerifyInit (createPublicRSA pub) <=? 0) eqn:E0.
  - cbn. split; [discriminate|]. lia.
  - destruct (EVP_DigestVerifyFinal _ msg sig =? 1) eqn:E; cbn.
    + split; [|reflexivity]. lia.
    + split; [|lia]. destruct (_ =? 0); discriminate.
Qed.

Lemma signMessage_fresh (pub priv : string) (msg : bytes) :
  fresh_keypair pub priv ->
  exists sig, signMessage priv msg = Ret sig /\ length sig = 256%nat
              /\ verifySignature pub msg sig = true.
Proof.
  intros Hfresh.
  destruct (fresh_keypair_keys _ _ Hfresh) as (k & Hok & Hsize & Hpub & Hpriv).
  destruct (EVP_DigestInit_ok k Hok) as [Hsi Hvi].
  destruct (EVP_DigestSign_verify k msg Hok) as (sig & Hsign & Hlen & Hver).
  exists sig. split; [|split].
  - unfold signMessage, RSASign, createPrivateRSA.
    rewrite Hpriv.
    destruct (EVP_DigestSignInit (Some k) <=? 0) eqn:E; [lia|].
    unfold len at 1. rewrite Nat2Z.id, take_ge by lia.
    rewrite Hsign, Hlen, Hsize. reflexivity.
  - unfold len in Hlen. lia.
  - apply verifySignature_true. unfold createPublicRSA. rewrite Hpub. auto.
Qed.

(** A signature made with a generated key is 256 bytes long and is accepted
    for its message under the public text of the pair
    ([signMessage_fresh]).  That a signature made for another message is
    turned down rests on the digest and on RSA, not on this module, and
    does not hold of every pair of messages whatever the primitive:
    signatures being 256 bytes long, some two different messages share
    one. *)
Lemma signature_collision (pub priv : string) :
  fresh_keypair pub priv ->
  exists msg other sig,
    msg <> other /\ signMessage priv other = Ret sig
    /\ verifySignature pub msg sig = true.
Proof.
  intros Hfresh.
  pose (sg := fun msg : bytes =>
          match signMessage priv msg with
          | Ret s => s
          | _ => replicate 256 zero
          end).
  assert (Hsg : forall msg, signMessage priv msg = Ret (sg msg)
                            /\ length (sg msg) = 256%nat
                            /\ verifySignature pub msg (sg msg) = true).
  { intros msg.
    destruct (signMessage_fresh pub priv msg Hfresh) as (s & Hs & Hl & Hv).
    unfold sg. rewrite Hs. auto. }
  pose (g := fun m : { l : list ascii | length l = 257%nat } =>
          exist (fun l : list ascii => length l = 256%nat)
                (sg (proj1_sig m)) (proj1 (proj2 (Hsg (proj1_sig m))))).
  destruct (finite_pigeonhole g) as (x1 & x2 & Hne & Heq).
  { rewrite !list_card.
    apply Nat.pow_lt_mono_r; [|lia].
    unfold ascii_finite. rewrite enc_finite_card. lia. }
  exists (proj1_sig x1), (proj1_sig x2), (sg (proj1_sig x2)).
  split; [|split].
  - intros E. apply Hne. apply (sig_eq_pi _). exact E.
  - apply Hsg.
  - apply (f_equal proj1_sig) in Heq. cbn in Heq. rewrite <- Heq.
    apply Hsg.
Qed.

(** C5 (amended): [RSAVerifySignature] ends in one of three ways, a
    verified match, a verified mismatch, or a verification that could not
    be performed, but [verifySignature] hands the caller one boolean,
    [result && authentic]: true for the verified match, false both for the
    verified mismatch and for the verification that could not be
    performed.  It raises no error, and its caller cannot tell the two
    negative outcomes apart. *)
Theorem verifySignature_outcomes (pub : string) (msg sig : bytes) :
  let r := RSAVerifySignature (createPublicRSA pub) sig msg (len msg) in
  (r = (true, true) \/ r = (true, false) \/ r = (false, false))
  /\ verifySignature pub msg sig
     = match verification_of r with
       | Verified_match => true
       | Verified_mismatch | Not_performed => false
       end.
Proof.
  unfold verifySignature, RSAVerifySignature.
  destruct (_ <=? 0); [cbn; auto|].
  destruct (_ =? 1); [cbn; auto|].
  destruct (_ =? 0); cbn; auto.
Qed.

(** * Further properties of the module *)

(** ** Encryption: sizes and failures *)

(** X1: [encryptWithAES] on a plaintext of at most [INT_MAX] bytes.  When
    the padded size, the plaintext length rounded up to the next multiple
    of 16 strictly above it, fits an [int], it does not throw and returns
    that size with as many bytes, so that a plaintext that fills its blocks
    gets a whole block of padding.  For the sixteen lengths from 2^31 - 16
    to [INT_MAX] the padded size is 2^31: [totalLength] wraps around and
    the size check throws "Failed to encrypt data". *)
Theorem encryptWithAES_size (data key iv : bytes) (w : world) :
  len data <= INT_MAX -> length iv = 16%nat ->
  let padded := len data + 16 - len data mod 16 in
  (padded <= INT_MAX ->
   exists out w',
     encryptWithAES data (len data) key iv w = (Ret (out, len out), w')
     /\ len out = padded
     /\ len data < len out <= len data + 16
     /\ len out mod 16 = 0)
  /\ (INT_MAX < padded ->
      2 ^ 31 - 16 <= len data
      /\ fst (encryptWithAES data (len data) key iv w)
         = Throw (runtime_error "Failed to encrypt data")).
Proof.
  intros Hmax Hiv padded.
  pose proof (len_aes_cbc_encrypt (take 32 key) iv data Hiv) as Hc.
  pose proof (Z.mod_pos_bound (len data) 16 ltac:(lia)) as Hm.
  pose proof (Z.div_mod (len data) 16 ltac:(lia)) as Hdm.
  assert (H0 : 0 <= len data) by (unfold len; lia).
  split.
  - intros Hfit. eexists _, _. split.
    + rewrite encryptWithAES_ok by assumption. rewrite Hc. reflexivity.
    + rewrite Hc. split; [reflexivity|]. split; [lia|].
      replace (len data + 16 - len data mod 16)
        with ((len data / 16 + 1) * 16) by lia.
      apply Z.mod_mul. lia.
  - intros Hbig. subst padded. unfold INT_MAX in *. split; [lia|].
    rewrite encryptWithAES_throws by (assumption || unfold INT_MAX; lia).
    replace (len data + 16 - len data mod 16) with (2 ^ 31) by lia.
    reflexivity.
Qed.

(** X2: a plaintext longer than [INT_MAX] bytes is not encrypted.  Either
    its length does not survive the conversion to the [int] that
    [EVP_EncryptUpdate] takes, nothing or too little is written, and
    [encryptWithAES] throws "Failed to encrypt data"; or, for a padded size
    above [PTRDIFF_MAX], the output buffer is not allocated. *)
Theorem encryptWithAES_too_long (data key iv : bytes) (w : world) :
  INT_MAX < len data < 2 ^ 64 -> length iv = 16%nat ->
  fst (encryptWithAES data (len data) key iv w)
  = Throw (if to_size_t (len data + 16 - len data mod 16) <=? PTRDIFF_MAX
           then runtime_error "Failed to encrypt data" else bad_alloc).
Proof.
  intros [Hbig H64] Hiv.
  apply encryptWithAES_throws; [assumption..|].
  pose proof (Z.mod_pos_bound (len data) 16 ltac:(lia)). lia.
Qed.

(** X3: when the random generator does not deliver, no envelope is made:
    if the draw of the session key fails, [createEncryptedMessage] throws
    "Could not create random key for message encryption" with that draw as
    its only call into the library; if the draw of the IV fails, it throws
    "Could not create random iv for message encryption" after the two
    draws. *)
Theorem no_entropy_no_envelope (data : bytes) (dataLength : Z)
    (pub : string) (w : world) :
  (forall s,
     RAND_bytes 32 (rand w) = (None, s) ->
     createEncryptedMessage data dataLength pub w
     = (Throw (runtime_error
                 "Could not create random key for message encryption"),
        World s (calls w ++ [call_RAND_bytes])))
  /\ (forall key s1 s2,
        RAND_bytes 32 (rand w) = (Some key, s1) ->
        RAND_bytes 16 s1 = (None, s2) ->
        createEncryptedMessage data dataLength pub w
        = (Throw (runtime_error
                    "Could not create random iv for message encryption"),
           World s2 (calls w ++ [call_RAND_bytes; call_RAND_bytes]))).
Proof.
  split.
  - intros s Hkey.
    unfold createEncryptedMessage, generateRandomKey. run_monad.
    change (Z.to_nat AES_256_KEY_LENGTH_BYTES) with 32%nat.
    rewrite Hkey. reflexivity.
  - intros key s1 s2 Hkey Hiv.
    unfold createEncryptedMessage, generateRandomKey, generateRandomIv.
    run_monad.
    change (Z.to_nat AES_256_KEY_LENGTH_BYTES) with 32%nat.
    change (Z.to_nat AES_256_IV_LENGTH_BYTES) with 16%nat.
    rewrite Hkey. cbn [rand calls]. rewrite Hiv. cbn [rand calls].
    rewrite <- app_assoc. reflexivity.
Qed.

(** X4: a public key text that does not parse makes
    [createEncryptedMessage] throw "Failed to create key RSA for message
    encryption" and return no envelope; the key is read only after the
    data was encrypted: when the padded size of the data does not fit an
    [int], it is the encryption that throws, whatever the key. *)
Theorem unparsable_public_key_no_envelope (data : bytes) (pub : string)
    (w : world) key iv s1 s2 :
  RAND_bytes 32 (rand w) = (Some key, s1) ->
  RAND_bytes 16 s1 = (Some iv, s2) ->
  len data <= INT_MAX ->
  PEM_read_bio_RSA_PUBKEY pub = None ->
  fst (createEncryptedMessage data (len data) pub w)
  = Throw (runtime_error
             (if len data + 16 - len data mod 16 <=? INT_MAX
              then "Failed to create key RSA for message encryption"
              else "Failed to encrypt data")).
Proof.
  intros Hkey Hiv Hmax Hpub.
  pose proof (RAND_bytes_length _ _ _ _ Hiv) as Liv.
  assert (H0 : 0 <= len data) by (unfold len; lia).
  pose proof (Z.mod_pos_bound (len data) 16 ltac:(lia)) as Hm.
  unfold createEncryptedMessage, mbind, M_bind.
  unfold generateRandomKey, generateRandomIv. run_monad.
  change (Z.to_nat AES_256_KEY_LENGTH_BYTES) with 32%nat.
  change (Z.to_nat AES_256_IV_LENGTH_BYTES) with 16%nat.
  rewrite Hkey. cbn [rand calls]. rewrite Hiv.
  destruct (len data + 16 - len data mod 16 <=? INT_MAX) eqn:Hfit.
  - rewrite encryptWithAES_ok by (assumption || lia).
    unfold encryptWithRsa. run_monad. rewrite Hpub. reflexivity.
  - match goal with
    | |- context [encryptWithAES data (len data) key iv ?w0] =>
        pose proof (encryptWithAES_throws data key iv w0) as Hthrow;
        destruct (encryptWithAES data (len data) key iv w0) as [o w1]
    end.
    cbn [fst] in Hthrow. rewrite Hthrow by (unfold INT_MAX in *; lia).
    cbn [fst]. f_equal.
    assert (E : (to_size_t (len data + 16 - len data mod 16)
                 <=? PTRDIFF_MAX) = true).
    { unfold to_size_t. rewrite Z.mod_small by (unfold INT_MAX in *; lia).
      unfold PTRDIFF_MAX, INT_MAX in *. lia. }
    rewrite E. reflexivity.
Qed.

(** X5: the length of every envelope follows from the plaintext length and
    the size of the recipient's key alone:
    8 + [RSA_size] + 16 + (n + 16 - n mod 16) for a plaintext of n bytes. *)
Theorem envelope_length (data : bytes) (pub : string) (k : RSA)
    (w w' : world) (env : bytes) :
  PEM_read_bio_RSA_PUBKEY pub = Some k ->
  len data < 2 ^ 64 ->
  createEncryptedMessage data (len data) pub w = (Ret env, w') ->
  len env = 8 + RSA_size k + 16 + (len data + 16 - len data mod 16).
Proof.
  intros Hpub H64 Henc.
  destruct (createEncryptedMessage_inv _ _ _ _ _ H64 Henc)
    as (key & iv & k' & wk & s1 & s2
        & _ & _ & Hpub' & _ & _ & Liv & Lwk & _ & ->).
  rewrite Hpub in Hpub'. inversion Hpub'; subst k'.
  rewrite <- (len_aes_cbc_encrypt key iv data Liv).
  unfold len in *. rewrite !length_app.
  cbn [length ENCR_MARKER list_ascii_of_string]. lia.
Qed.

(** X6: what was encrypted without the recognition tag does not decrypt:
    for a plaintext of at least three bytes that does not start with "MSG"
    and a freshly generated keypair, [createDecryptedMessage] throws
    "Failed to decrypt message" on the envelope [createEncryptedMessage]
    made. *)
Theorem untagged_plaintext_rejected (p : bytes) (pub priv : string)
    (w w' w2 : world) (env : bytes) :
  fresh_keypair pub priv ->
  3 <= len p < 2 ^ 64 ->
  take 3 p <> MSG_RECOGNIZE_TAG ->
  createEncryptedMessage p (len p) pub w = (Ret env, w') ->
  len env <= INT_MAX ->
  fst (createDecryptedMessage env (len env) priv w2)
  = Throw (runtime_error "Failed to decrypt message").
Proof.
  intros Hfresh [H3 H64] Htag Henc Hint.
  rewrite (decrypt_encrypt _ _ _ _ _ _ _ Hfresh H64 Henc Hint).
  destruct (len p <? 3) eqn:E; [lia|].
  unfold bytes_eqb. rewrite bool_decide_eq_false_2 by assumption.
  reflexivity.
Qed.

(** ** Decryption: the key, and what an accepted envelope looks like *)

Lemma marker_length (buf : bytes) :
  take 8 buf = ENCR_MARKER -> 8 <= len buf.
Proof.
  intros H. apply (f_equal length) in H. rewrite length_take in H.
  cbn [length ENCR_MARKER list_ascii_of_string] in H. unfold len. lia.
Qed.

Lemma unparsable_private_key_throws (buf : bytes) (priv : string)
    (w : world) :
  take 8 buf = ENCR_MARKER ->
  PEM_read_bio_RSAPrivateKey priv = None ->
  createDecryptedMessage buf (len buf) priv w
  = (Throw (runtime_error "Failed to create RSA"),
     World (rand w)
       (calls w ++ [call_BIO_new_mem_buf; call_PEM_read_bio_RSAPrivateKey])).
Proof.
  intros Hmark Hpriv. pose proof (marker_length buf Hmark) as H8.
  unfold createDecryptedMessage, checkMessageMarker, mbind at 1, M_bind at 1.
  unfold ENCR_MARKER_SIZE. change (Z.to_nat 8) with 8%nat.
  destruct (len buf <? 8) eqn:E; [lia|].
  unfold bytes_eqb. rewrite bool_decide_eq_true_2 by assumption.
  cbn [orb negb]. unfold mret at 1, M_ret at 1.
  unfold decryptKey. run_monad. rewrite Hpriv. cbn [rand calls].
  rewrite <- !app_assoc. reflexivity.
Qed.

(** X7: a private key text that does not parse makes
    [createDecryptedMessage] throw "Failed to create RSA" on a buffer that
    starts with the marker, after nothing but the attempt to read the key:
    a message of its own, unlike the one for an envelope that fails to
    decrypt. *)
Theorem unparsable_private_key_rejected (buf : bytes) (priv : string)
    (w : world) :
  take 8 buf = ENCR_MARKER ->
  PEM_read_bio_RSAPrivateKey priv = None ->
  createDecryptedMessage buf (len buf) priv w
  = (Throw (runtime_error "Failed to create RSA"),
     World (rand w)
       (calls w ++ [call_BIO_new_mem_buf; call_PEM_read_bio_RSAPrivateKey]))
  /\ runtime_error "Failed to create RSA"
     <> runtime_error "Failed to decrypt message".
Proof.
  intros Hmark Hpriv. split.
  - apply unparsable_private_key_throws; assumption.
  - discriminate.
Qed.

Lemma decryptedBuffer_ret_aligned (c : bytes) (l : Z) (key iv : bytes)
    (w : world) b :
  fst (decryptedBuffer c l key iv w) = Ret b -> 0 < l /\ l mod 16 = 0.
Proof.
  unfold decryptedBuffer.
  destruct (l <=? 0) eqn:E0; [discriminate|].
  destruct (Z.rem l AES_BLOCK_SIZE =? 0) eqn:E1; [|discriminate].
  intros _. split; [lia|].
  rewrite Z.rem_mod_nonneg in E1 by (unfold AES_BLOCK_SIZE; lia).
  unfold AES_BLOCK_SIZE in E1. lia.
Qed.

(** X8: [createDecryptedMessage] returns a plaintext only for a well-formed
    envelope: the buffer starts with the marker, the private key parses,
    the [RSA_size] bytes behind the marker decrypt to a 32-byte key, at
    least one block of ciphertext follows the 16 bytes of IV and the
    ciphertext length is a multiple of 16, and the ciphertext decrypts
    under that key and IV to the recognition tag followed by the very
    plaintext returned. *)
Theorem decrypted_only_if_well_formed (buf : bytes) (priv : string)
    (w : world) (p : bytes) :
  len buf <= INT_MAX ->
  fst (createDecryptedMessage buf (len buf) priv w) = Ret p ->
  exists k d,
    take 8 buf = ENCR_MARKER
    /\ PEM_read_bio_RSAPrivateKey priv = Some k
    /\ RSA_private_decrypt (take (Z.to_nat (RSA_size k)) (drop 8 buf)) k
       = Some d
    /\ len d = 32
    /\ 8 + RSA_size k + 16 < len buf
    /\ (len buf - 8 - RSA_size k - 16) mod 16 = 0
    /\ let iv := take 16 (drop (Z.to_nat (RSA_size k)) (drop 8 buf)) in
       let c := drop 16 (drop (Z.to_nat (RSA_size k)) (drop 8 buf)) in
       fst (decryptedBuffer c (len c) d iv (after_key_recovery w))
       = Ret (MSG_RECOGNIZE_TAG ++ p).
Proof.
  intros Hint Hret.
  destruct (decide (take 8 buf = ENCR_MARKER)) as [Hmark|Hbad].
  2:{ rewrite bad_marker_throws in Hret by (right; assumption).
      discriminate. }
  destruct (PEM_read_bio_RSAPrivateKey priv) as [k|] eqn:Hpriv.
  2:{ rewrite unparsable_private_key_throws in Hret by assumption.
      discriminate. }
  pose proof (RSA_size_nonneg k) as Hsize.
  assert (Hrest : len (drop 8 buf) = len buf - 8).
  { pose proof (marker_length buf Hmark).
    unfold len in *. rewrite length_drop. lia. }
  pose proof Hret as Hret'. pose proof Hint as Hint'.
  rewrite (marked_buffer buf Hmark) in Hint', Hret' at 1 2.
  rewrite createDecryptedMessage_marked with (k := k) in Hret'
    by assumption.
  destruct (_ <? RSA_size k) eqn:E1; [discriminate|].
  destruct (RSA_private_decrypt _ k) as [d|] eqn:Hd; [|discriminate].
  destruct (len d =? 32) eqn:E32; cbn [negb] in Hret'; [|discriminate].
  destruct (_ <? 16) eqn:E16; [discriminate|].
  clear Hret'.
  assert (Hd32 : len d = 32) by lia.
  assert (Hlen : 8 + RSA_size k + 16 <= len buf) by lia.
  rewrite (createDecryptedMessage_key_recovered buf priv k d w)
    in Hret by assumption.
  set (iv := take 16 _) in *. set (c := drop 16 _) in *.
  assert (Hc : len c = len buf - 8 - RSA_size k - 16).
  { subst c. unfold len in *. rewrite !length_drop in *. lia. }
  revert Hret. unfold decryptData, mbind, M_bind.
  destruct (decryptedBuffer c (len c) d iv (after_key_recovery w))
    as [[b| |] w1] eqn:Hbuf; try discriminate.
  change (len MSG_RECOGNIZE_TAG) with 3.
  change (length MSG_RECOGNIZE_TAG) with 3%nat.
  destruct (len b <? 3) eqn:E3; [discriminate|].
  unfold bytes_eqb.
  destruct (decide (take 3 b = MSG_RECOGNIZE_TAG)) as [Htag|Htag].
  2:{ rewrite bool_decide_eq_false_2 by assumption. discriminate. }
  rewrite bool_decide_eq_true_2 by assumption. cbn [negb fst].
  unfold mret, M_ret. intros Hp. inversion Hp; subst p.
  destruct (decryptedBuffer_ret_aligned c (len c) d iv
              (after_key_recovery w) b) as [Hpos Hal];
    [rewrite Hbuf; reflexivity|].
  exists k, d. repeat split; try assumption; try lia.
  - rewrite <- Hc. assumption.
  - cbv zeta. fold iv c. rewrite Hbuf. cbn [fst].
    rewrite <- Htag. rewrite take_drop. reflexivity.
Qed.

(** ** Key generation *)

(** X10: [generateKeysPair] returns true exactly when the generation of a
    2048-bit key with public exponent 65537 and the two PEM writers
    succeed; the texts it hands out are then what the writers wrote for
    the generated key, the public text first. *)
Theorem generateKeysPair_succeeds (w : world) (pub priv : string) :
  (exists w', generateKeysPair w = (Ret (true, pub, priv), w'))
  <-> exists k s,
        RSA_generate_key_ex 2048 65537 (rand w) = (Some k, s)
        /\ PEM_write_bio_PUBKEY k = Some pub
        /\ PEM_write_bio_RSAPrivateKey k = Some priv.
Proof.
  split.
  - intros (w' & H).
    apply generateKeysPair_true in H as (k & Hgen & Hw1 & Hw2).
    exists k, (rand w'). auto.
  - intros (k & s & Hgen & Hw1 & Hw2). eexists.
    unfold generateKeysPair, text_of_bio, written_bio. run_monad.
    unfold RSA_F4. rewrite Hgen. cbn [rand calls].
    rewrite Hw1. cbn [rand calls]. rewrite Hw2. cbn [rand calls].
    reflexivity.
Qed.

(** X11: when a step fails, [generateKeysPair] goes on to read both BIOs,
    and the BIO of every later step is still null.  After a failed
    generation, or a failed writing of the public key, it returns false,
    the text read from a null BIO being empty, where [BIO_pending] answers
    0 on a null BIO; where it answers -1, the terminator is written
    outside the array and the outcome is undefined.  After a failed
    writing of the private key no BIO is null: it returns false, with the
    public text and with what the BIO of the private key holds. *)
Theorem generateKeysPair_fails (w : world) :
  (forall s,
     RSA_generate_key_ex 2048 65537 (rand w) = (None, s) ->
     (BIO_pending_NULL = 0 ->
      fst (generateKeysPair w) = Ret (false, ""%string, ""%string))
     /\ (BIO_pending_NULL = -1 -> fst (generateKeysPair w) = Undefined))
  /\ (forall k s,
        RSA_generate_key_ex 2048 65537 (rand w) = (Some k, s) ->
        PEM_write_bio_PUBKEY k = None ->
        (BIO_pending_NULL = 0 ->
         fst (generateKeysPair w)
         = Ret (false, PEM_write_bio_PUBKEY_partial k, ""%string))
        /\ (BIO_pending_NULL = -1 -> fst (generateKeysPair w) = Undefined))
  /\ (forall k s pub,
        RSA_generate_key_ex 2048 65537 (rand w) = (Some k, s) ->
        PEM_write_bio_PUBKEY k = Some pub ->
        PEM_write_bio_RSAPrivateKey k = None ->
        fst (generateKeysPair w)
        = Ret (false, pub, PEM_write_bio_RSAPrivateKey_partial k)).
Proof.
  split; [|split].
  - intros s Hgen.
    unfold generateKeysPair, text_of_bio, written_bio. run_monad.
    unfold RSA_F4. rewrite Hgen. cbn [rand calls].
    split; intros ->; reflexivity.
  - intros k s Hgen Hw1.
    unfold generateKeysPair, text_of_bio, written_bio. run_monad.
    unfold RSA_F4. rewrite Hgen. cbn [rand calls].
    rewrite Hw1. cbn [rand calls].
    split; intros ->; reflexivity.
  - intros k s pub Hgen Hw1 Hw2.
    unfold generateKeysPair, text_of_bio, written_bio. run_monad.
    unfold RSA_F4. rewrite Hgen. cbn [rand calls].
    rewrite Hw1. cbn [rand calls]. rewrite Hw2. reflexivity.
Qed.

(** ** Signing *)

(** X12: every signature [signMessage] returns is exactly 256 bytes long
    and is the one [EVP_DigestSignFinal] wrote for the message under the
    parsed key; whenever the key does not initialise the signing, the
    signing fails, or the signature has another length, it throws
    "Could not sign message". *)
Theorem signMessage_256_or_throws (priv : string) (msg : bytes) :
  (exists sig,
     signMessage priv msg = Ret sig
     /\ len sig = 256
     /\ 0 < EVP_DigestSignInit (createPrivateRSA priv)
     /\ EVP_DigestSignFinal (createPrivateRSA priv) msg = Some sig)
  \/ (signMessage priv msg = Throw (runtime_error "Could not sign message")
      /\ (EVP_DigestSignInit (createPrivateRSA priv) <= 0
          \/ EVP_DigestSignFinal (createPrivateRSA priv) msg = None
          \/ exists sig,
               EVP_DigestSignFinal (createPrivateRSA priv) msg = Some sig
               /\ len sig <> 256)).
Proof.
  unfold signMessage, RSASign.
  replace (take (Z.to_nat (len msg)) msg) with msg
    by (unfold len; rewrite Nat2Z.id, take_ge by lia; reflexivity).
  destruct (EVP_DigestSignInit (createPrivateRSA priv) <=? 0) eqn:E0.
  { right. split; [reflexivity|]. left. lia. }
  destruct (EVP_DigestSignFinal (createPrivateRSA priv) msg) as [sig|].
  2:{ right. split; [reflexivity|]. right. left. reflexivity. }
  unfold RSA_SIGNATURE_LENGTH.
  destruct (len sig =? 256) eqn:E; cbn [negb orb].
  - left. exists sig. split; [reflexivity|]. split; [lia|].
    split; [lia|reflexivity].
  - right. split; [reflexivity|]. right. right. exists sig.
    split; [reflexivity|lia].
Qed.

End Properties.

(** * The theorems on the executable instance *)

Lemma toy_fresh_keypair : fresh_keypair (SSL := toy) toy_pub toy_priv.
Proof. exists (toy_world 1). eexists. vm_compute. reflexivity. Qed.

Lemma toy_encrypt_envelope (p : bytes) (seed : nat) :
  (exists env, fst (toy_encrypt p seed) = Ret env) ->
  toy_encrypt p seed = (Ret (toy_envelope p seed), snd (toy_encrypt p seed)).
Proof.
  intros [env H]. unfold toy_envelope. rewrite H.
  destruct (toy_encrypt p seed); cbn in *. congruence.
Qed.

Lemma roundtrip_with_tag_witness :
  fst (createDecryptedMessage (SSL := toy)
         (toy_envelope (MSG_RECOGNIZE_TAG ++ hello_world) 9)
         (len (toy_envelope (MSG_RECOGNIZE_TAG ++ hello_world) 9))
         toy_priv (toy_world 0))
  = Ret hello_world.
Proof.
  apply (roundtrip_with_tag (SSL := toy) hello_world toy_pub toy_priv
           (toy_world 9)
           (snd (toy_encrypt (MSG_RECOGNIZE_TAG ++ hello_world) 9))).
  - exact toy_fresh_keypair.
  - vm_compute. reflexivity.
  - apply (toy_encrypt_envelope (MSG_RECOGNIZE_TAG ++ hello_world) 9).
    eexists. vm_compute. reflexivity.
  - vm_compute. discriminate.
Defined.

Lemma roundtrip_without_tag_counterexample :
  fresh_keypair (SSL := toy) toy_pub toy_priv
  /\ toy_encrypt secret 9 = (Ret (toy_envelope secret 9), snd (toy_encrypt secret 9))
  /\ fst (createDecryptedMessage (SSL := toy) (toy_envelope secret 9)
            (len (toy_envelope secret 9)) toy_priv (toy_world 0))
     <> Ret secret.
Proof.
  split; [exact toy_fresh_keypair|]. split.
  - apply (toy_encrypt_envelope secret 9). eexists. vm_compute. reflexivity.
  - vm_compute. discriminate.
Qed.

Lemma ciphertext_is_data_as_given_witness :
  exists key iv k s1 s2,
    RAND_bytes (OpenSSL := toy) 32 9%nat = (Some key, s1)
    /\ RAND_bytes (OpenSSL := toy) 16 s1 = (Some iv, s2)
    /\ PEM_read_bio_RSA_PUBKEY (OpenSSL := toy) toy_pub = Some k
    /\ let c := drop (Z.to_nat (8 + RSA_size k + 16))
                     (toy_envelope secret 9) in
       fst (decryptedBuffer (SSL := toy) c (len c) key iv (toy_world 0))
       = Ret secret.
Proof.
  apply (ciphertext_is_data_as_given (SSL := toy) secret toy_pub
           (toy_world 9) (snd (toy_encrypt secret 9))).
  - vm_compute. reflexivity.
  - apply (toy_encrypt_envelope secret 9). eexists. vm_compute. reflexivity.
Defined.

Lemma ciphertext_without_tag_counterexample :
  toy_encrypt hello_world 9
  = (Ret (toy_envelope hello_world 9), snd (toy_encrypt hello_world 9))
  /\ exists key iv buf,
       fst (RAND_bytes (OpenSSL := toy) 32 9%nat) = Some key
       /\ fst (RAND_bytes (OpenSSL := toy) 16 41%nat) = Some iv
       /\ fst (decryptedBuffer (SSL := toy)
                 (drop 280 (toy_envelope hello_world 9)) 16 key iv
                 (toy_world 0)) = Ret buf
       /\ take 3 buf <> MSG_RECOGNIZE_TAG.
Proof.
  split.
  - apply (toy_encrypt_envelope hello_world 9).
    eexists. vm_compute. reflexivity.
  - eexists _, _, _. split; [vm_compute; reflexivity|].
    split; [vm_compute; reflexivity|].
    split; [vm_compute; reflexivity|].
    vm_compute. discriminate.
Qed.

Lemma envelope_layout_witness :
  exists wrapped_key iv ciphertext,
    toy_envelope hello_world 9
    = list_ascii_of_string "MESSAGE:" ++ wrapped_key ++ iv ++ ciphertext
    /\ (exists key s s', length key = 32%nat
          /\ RSA_public_encrypt (OpenSSL := toy) key
               {| toy_n := 3; toy_private := false |} s
             = (Some wrapped_key, s')
          /\ ciphertext = aes_cbc_encrypt (SSL := toy) key iv hello_world)
    /\ len wrapped_key = 256
    /\ len iv = 16
    /\ 0 < len ciphertext /\ len ciphertext mod 16 = 0
    /\ len (toy_envelope hello_world 9) = 8 + 256 + 16 + len ciphertext.
Proof.
  apply (envelope_layout (SSL := toy) hello_world toy_pub
           {| toy_n := 3; toy_private := false |}
           (toy_world 9) (snd (toy_encrypt hello_world 9))).
  - vm_compute. reflexivity.
  - vm_compute. reflexivity.
  - apply (toy_encrypt_envelope hello_world 9).
    eexists. vm_compute. reflexivity.
Defined.

Lemma hello_world_scenario_witness :
  (len (toy_envelope hello_world 9) = 296
   /\ fst (createDecryptedMessage (SSL := toy) (toy_envelope hello_world 9)
             296 toy_priv (toy_world 0))
      = Throw (runtime_error "Failed to decrypt message"))
  /\ (len (toy_envelope (MSG_RECOGNIZE_TAG ++ hello_world) 20) = 296
      /\ fst (createDecryptedMessage (SSL := toy)
                (toy_envelope (MSG_RECOGNIZE_TAG ++ hello_world) 20)
                296 toy_priv (toy_world 0))
         = Ret hello_world).
Proof.
  apply (hello_world_scenario (SSL := toy) toy_pub toy_priv
           (toy_world 9) (snd (toy_encrypt hello_world 9))
           (toy_world 20)
           (snd (toy_encrypt (MSG_RECOGNIZE_TAG ++ hello_world) 20))).
  - exact toy_fresh_keypair.
  - apply (toy_encrypt_envelope hello_world 9).
    eexists. vm_compute. reflexivity.
  - apply (toy_encrypt_envelope (MSG_RECOGNIZE_TAG ++ hello_world) 20).
    eexists. vm_compute. reflexivity.
Defined.

Lemma hello_world_counterexample :
  fresh_keypair (SSL := toy) toy_pub toy_priv
  /\ toy_encrypt hello_world 9
     = (Ret (toy_envelope hello_world 9), snd (toy_encrypt hello_world 9))
  /\ len (toy_envelope hello_world 9) = 296
  /\ fst (createDecryptedMessage (SSL := toy) (toy_envelope hello_world 9)
            296 toy_priv (toy_world 0))
     <> Ret hello_world.
Proof.
  split; [exact toy_fresh_keypair|]. split.
  - apply (toy_encrypt_envelope hello_world 9).
    eexists. vm_compute. reflexivity.
  - split; [vm_compute; reflexivity|]. vm_compute. discriminate.
Qed.

Lemma tag_read_past_short_buffer_witness :
  let key := replicate 32 "k"%char in
  let iv := replicate 16 "i"%char in
  let c := aes_cbc_encrypt (SSL := toy) key iv [] in
  len c = 16
  /\ fst (decryptedBuffer (SSL := toy) c (len c) key iv (toy_world 0)) = Ret []
  /\ fst (decryptData (SSL := toy) c (len c) key iv (toy_world 0)) = Undefined.
Proof.
  intros key iv c. split; [vm_compute; reflexivity|].
  apply (tag_read_past_short_buffer (SSL := toy) key iv [] (toy_world 0)).
  - vm_compute. reflexivity.
  - vm_compute. reflexivity.
  - vm_compute. reflexivity.
Defined.

Lemma empty_plaintext_envelope_undefined :
  toy_encrypt [] 9 = (Ret (toy_envelope [] 9), snd (toy_encrypt [] 9))
  /\ fst (createDecryptedMessage (SSL := toy) (toy_envelope [] 9)
            (len (toy_envelope [] 9)) toy_priv (toy_world 0))
     = Undefined.
Proof.
  split.
  - apply (toy_encrypt_envelope [] 9). eexists. vm_compute. reflexivity.
  - vm_compute. reflexivity.
Qed.

Lemma malformed_envelope_rejected_witness :
  createDecryptedMessage (SSL := toy) not_an_envelope (len not_an_envelope)
    toy_priv (toy_world 0)
  = (Throw (runtime_error "Failed to decrypt message"), toy_world 0)
  /\ fst (createDecryptedMessage (SSL := toy)
            (take 200 (toy_envelope hello_world 9))
            (len (take 200 (toy_envelope hello_world 9)))
            toy_priv (toy_world 0))
     = Throw (runtime_error "Failed to decrypt message").
Proof.
  split.
  - apply (proj1 (malformed_envelope_rejected (SSL := toy) not_an_envelope
                    toy_priv (toy_world 0))).
    right. vm_compute. discriminate.
  - apply (proj2 (malformed_envelope_rejected (SSL := toy)
                    (take 200 (toy_envelope hello_world 9))
                    toy_priv (toy_world 0)) toy_key).
    + vm_compute. reflexivity.
    + vm_compute. reflexivity.
    + vm_compute. discriminate.
    + vm_compute. reflexivity.
Defined.

Lemma decryption_failures_throw_alike_witness :
  envelope_fails (SSL := toy) toy_key (toy_envelope hello_world 9)
    Tag_mismatch
  /\ fst (createDecryptedMessage (SSL := toy) (toy_envelope hello_world 9)
            (len (toy_envelope hello_world 9)) toy_priv (toy_world 0))
     = Throw (runtime_error "Failed to decrypt message").
Proof.
  assert (H : envelope_fails (SSL := toy) toy_key
                (toy_envelope hello_world 9) Tag_mismatch).
  { eexists _, hello_world, (toy_world 0).
    split; [split; [vm_compute; reflexivity|]|].
    - split; [vm_compute; discriminate|].
      split; [vm_compute; reflexivity|vm_compute; reflexivity].
    - split; [vm_compute; reflexivity|].
      split; [vm_compute; discriminate|vm_compute; discriminate]. }
  split; [exact H|].
  apply (decryption_failures_throw_alike (SSL := toy) Tag_mismatch toy_key).
  - vm_compute. reflexivity.
  - vm_compute. discriminate.
  - exact H.
Defined.

Lemma error_kinds_counterexample :
  envelope_fails (SSL := toy) toy_key not_an_envelope Bad_marker
  /\ (exists b,
        fst (decryptedBuffer (SSL := toy)
               (drop 280 (toy_envelope hello_world 9)) 16
               (take 32 (default [] (fst (toy_RAND_bytes 32 9))))
               (take 16 (drop 264 (toy_envelope hello_world 9)))
               (toy_world 0)) = Ret b
        /\ take 3 b <> MSG_RECOGNIZE_TAG)
  /\ fst (createDecryptedMessage (SSL := toy) not_an_envelope
            (len not_an_envelope) toy_priv (toy_world 0))
     = Throw (runtime_error "Failed to decrypt message")
  /\ fst (createDecryptedMessage (SSL := toy) (toy_envelope hello_world 9)
            (len (toy_envelope hello_world 9)) toy_priv (toy_world 0))
     = Throw (runtime_error "Failed to decrypt message").
Proof.
  split; [right; vm_compute; discriminate|].
  split; [eexists; split; [vm_compute; reflexivity|vm_compute; discriminate]|].
  split; vm_compute; reflexivity.
Qed.

Lemma matchRSAKeys_spec_witness :
  matchRSAKeys (SSL := toy) toy_pub toy_priv = true
  /\ matchRSAKeys (SSL := toy) toy_pub toy_priv2 = false
  /\ matchRSAKeys (SSL := toy) "junk" toy_priv = false.
Proof.
  destruct (matchRSAKeys_spec (SSL := toy)) as (Hiff & Hfail & Hfresh & Hother).
  split; [|split].
  - apply Hfresh. exact toy_fresh_keypair.
  - apply (Hother toy_pub toy_priv toy_pub2 toy_priv2).
    + exact toy_fresh_keypair.
    + exists (toy_world 5). eexists. vm_compute. reflexivity.
    + vm_compute. discriminate.
  - apply Hfail. left. vm_compute. reflexivity.
Defined.

Lemma verification_outcomes_counterexample :
  verification_of
    (RSAVerifySignature (SSL := toy) (createPublicRSA toy_pub)
       toy_hello_signature secret (len secret)) = Verified_mismatch
  /\ verification_of
       (RSAVerifySignature (SSL := toy) (createPublicRSA "not a key")
          toy_hello_signature hello_world (len hello_world)) = Not_performed
  /\ verification_of
       (RSAVerifySignature (SSL := toy) (createPublicRSA toy_pub)
          (take 10 toy_hello_signature) hello_world (len hello_world))
     = Not_performed
  /\ verifySignature (SSL := toy) toy_pub secret toy_hello_signature = false
  /\ verifySignature (SSL := toy) "not a key" hello_world toy_hello_signature
     = false
  /\ verifySignature (SSL := toy) toy_pub hello_world
       (take 10 toy_hello_signature) = false.
Proof. repeat split; vm_compute; reflexivity. Qed.

(** * rpc/lottery.cpp: the power-of-two test of [makebet] *)

Lemma land_pred_pos (p : positive) :
  Z.land (Zpos p) (Zpos p - 1) = 0 <-> exists k, 0 <= k /\ Zpos p = 2 ^ k.
Proof.
  induction p as [p IH|p IH|].
  - split.
    + intros H. exfalso.
      replace (Z.pos p~1 - 1) with (2 * Z.pos p) in H by lia.
      change (Z.pos p~1) with (2 * Z.pos p + 1) in H.
      assert (E : Z.land (2 * Z.pos p + 1) (2 * Z.pos p) = 2 * Z.pos p).
      { apply Z.bits_inj'. intros n Hn. rewrite Z.land_spec.
        destruct (Z.eq_dec n 0) as [->|Hne].
        - rewrite Z.testbit_odd_0, Z.testbit_even_0. reflexivity.
        - replace n with (Z.succ (n - 1)) by lia.
          rewrite Z.testbit_odd_succ, Z.testbit_even_succ by lia.
          apply andb_diag. }
      lia.
    + intros (k & Hk & E). exfalso.
      destruct (Z.eq_dec k 0) as [->|Hne]; [cbn in E; lia|].
      replace k with (Z.succ (k - 1)) in E by lia.
      rewrite Z.pow_succ_r in E by lia. lia.
  - replace (Z.pos p~0 - 1) with (2 * (Z.pos p - 1) + 1) by lia.
    change (Z.pos p~0) with (2 * Z.pos p).
    assert (E : Z.land (2 * Z.pos p) (2 * (Z.pos p - 1) + 1)
                = 2 * Z.land (Z.pos p) (Z.pos p - 1)).
    { apply Z.bits_inj'. intros n Hn. rewrite Z.land_spec.
      destruct (Z.eq_dec n 0) as [->|Hne].
      - rewrite !Z.testbit_even_0. reflexivity.
      - replace n with (Z.succ (n - 1)) by lia.
        rewrite Z.testbit_even_succ, Z.testbit_odd_succ,
          Z.testbit_even_succ by lia.
        rewrite Z.land_spec. reflexivity. }
    rewrite E. split.
    + intros H.
      assert (H' : Z.land (Z.pos p) (Z.pos p - 1) = 0) by lia.
      apply IH in H' as (k & Hk & Ek). exists (Z.succ k). split; [lia|].
      rewrite Z.pow_succ_r by lia. lia.
    + intros (k & Hk & Ek).
      destruct (Z.eq_dec k 0) as [->|Hne]; [cbn in Ek; lia|].
      replace k with (Z.succ (k - 1)) in Ek by lia.
      rewrite Z.pow_succ_r in Ek by lia.
      assert (Hp : Z.pos p = 2 ^ (k - 1)) by lia.
      assert (Z.land (Z.pos p) (Z.pos p - 1) = 0)
        by (apply IH; exists (k - 1); split; [lia|assumption]).
      lia.
  - split; [|reflexivity]. intros _. exists 0. split; [lia|reflexivity].
Qed.

Lemma power_of_2_test (r : Z) :
  r < 2 ^ 31 ->
  (0 <? r) && (Z.land r (r - 1) =? 0) = true
  <-> exists k, 0 <= k <= 30 /\ r = 2 ^ k.
Proof.
  intros Hr. rewrite andb_true_iff, Z.ltb_lt, Z.eqb_eq. split.
  - intros [Hpos Hland]. destruct r as [|p|p]; try lia.
    apply land_pred_pos in Hland as (k & Hk & E).
    exists k. split; [|assumption]. split; [lia|].
    rewrite E in Hr. apply Z.pow_lt_mono_r_iff in Hr; lia.
  - intros (k & Hk & ->).
    assert (Hp : 0 < 2 ^ k) by (apply Z.pow_pos_nonneg; lia).
    split; [assumption|].
    destruct (2 ^ k) as [|p|p] eqn:E; try lia.
    apply land_pred_pos. exists k. split; [lia|symmetry; exact E].
Qed.

(** X13: [makebet] accepts a reward_mult_ratio exactly when it is one of the
    powers of two 1, 2, 4, ..., 2^30 and at least the minimal reward of the
    bet number's mask; the mask is then that of the ratio less one.  Any
    other [int], zero and the negative ones included, is turned down with
    "reward_mult_ratio must be power of 2", whatever the minimal reward; a
    power of two below the minimal reward is turned down with the message
    that names the minimum. *)
Theorem makebet_reward_mult_ratio (getMask maskToReward : Z -> Z)
    (to_string : Z -> string) (betNumber rewardMult : Z) :
  - 2 ^ 31 <= rewardMult < 2 ^ 31 ->
  let minReward := maskToReward (getMask betNumber) in
  let result :=
    makebet_mask getMask maskToReward to_string betNumber (Some rewardMult) in
  (~ (exists k, 0 <= k <= 30 /\ rewardMult = 2 ^ k) ->
   result = Throw (runtime_error "reward_mult_ratio must be power of 2"))
  /\ ((exists k, 0 <= k <= 30 /\ rewardMult = 2 ^ k) ->
      rewardMult < minReward ->
      result = Throw (runtime_error
                        ("reward_mult_ratio must be at least "
                         ++ to_string minReward)))
  /\ ((exists k, 0 <= k <= 30 /\ rewardMult = 2 ^ k) ->
      minReward <= rewardMult ->
      result = Ret (getMask (rewardMult - 1))).
Proof.
  intros [_ Hr] minReward result. subst result. unfold makebet_mask.
  fold minReward.
  pose proof (power_of_2_test rewardMult Hr) as Htest.
  destruct ((0 <? rewardMult) && (Z.land rewardMult (rewardMult - 1) =? 0))
    eqn:E; cbn [negb].
  - assert (Hpow : exists k, 0 <= k <= 30 /\ rewardMult = 2 ^ k)
      by (apply Htest; reflexivity).
    split; [intros Hn; contradiction|]. split; intros _ Hcmp.
    + destruct (rewardMult <? minReward) eqn:E'; [reflexivity|lia].
    + destruct (rewardMult <? minReward) eqn:E'; [lia|reflexivity].
  - split; [reflexivity|].
    split; intros Hpow; apply Htest in Hpow; discriminate.
Qed.

(** * The further properties on the executable instances *)

Lemma encryptWithAES_size_witness :
  exists out w',
    encryptWithAES (SSL := toy) hello_world (len hello_world)
      (replicate 32 "k"%char) (replicate 16 "i"%char) (toy_world 0)
    = (Ret (out, len out), w')
    /\ len out = len hello_world + 16 - len hello_world mod 16
    /\ len hello_world < len out <= len hello_world + 16
    /\ len out mod 16 = 0.
Proof.
  apply (encryptWithAES_size (SSL := toy) hello_world).
  - vm_compute. discriminate.
  - vm_compute. reflexivity.
  - vm_compute. discriminate.
Defined.

Lemma len_two_gib : len two_gib = 2 ^ 31.
Proof.
  unfold len, two_gib. rewrite length_replicate.
  apply Z2Nat.id. apply Z.pow_nonneg. lia.
Qed.

Lemma encryptWithAES_too_long_witness :
  fst (encryptWithAES (SSL := toy) two_gib (len two_gib)
         (replicate 32 "k"%char) (replicate 16 "i"%char) (toy_world 0))
  = Throw (runtime_error "Failed to encrypt data").
Proof.
  rewrite (encryptWithAES_too_long (SSL := toy) two_gib).
  - rewrite len_two_gib. reflexivity.
  - rewrite len_two_gib. split; reflexivity.
  - reflexivity.
Defined.

Lemma no_entropy_no_envelope_witness :
  createEncryptedMessage (SSL := starved) hello_world 11 toy_pub
    (starved_world 0)
  = (Throw (runtime_error
              "Could not create random key for message encryption"),
     World (SSL := starved) 0%nat [call_RAND_bytes])
  /\ createEncryptedMessage (SSL := starved) hello_world 11 toy_pub
       (starved_world 40)
     = (Throw (runtime_error
                 "Could not create random iv for message encryption"),
        World (SSL := starved) 8%nat [call_RAND_bytes; call_RAND_bytes]).
Proof.
  split.
  - apply (proj1 (no_entropy_no_envelope (SSL := starved) hello_world 11
                    toy_pub (starved_world 0)) 0%nat).
    reflexivity.
  - apply (proj2 (no_entropy_no_envelope (SSL := starved) hello_world 11
                    toy_pub (starved_world 40))
             (replicate 32 zero) 8%nat 8%nat); reflexivity.
Defined.

Lemma unparsable_public_key_no_envelope_witness :
  fst (createEncryptedMessage (SSL := toy) hello_world (len hello_world)
         "not a key" (toy_world 9))
  = Throw (runtime_error "Failed to create key RSA for message encryption").
Proof.
  rewrite (unparsable_public_key_no_envelope (SSL := toy) hello_world
             "not a key" (toy_world 9)
             (default [] (fst (toy_RAND_bytes 32 9)))
             (default [] (fst (toy_RAND_bytes 16 41))) 41%nat 57%nat).
  - reflexivity.
  - vm_compute. reflexivity.
  - vm_compute. reflexivity.
  - vm_compute. discriminate.
  - vm_compute. reflexivity.
Defined.

Lemma envelope_length_witness :
  len (toy_envelope a256 9) = 8 + 256 + 16 + (256 + 16 - 0).
Proof.
  apply (envelope_length (SSL := toy) a256 toy_pub
           {| toy_n := 3; toy_private := false |}
           (toy_world 9) (snd (toy_encrypt a256 9))).
  - vm_compute. reflexivity.
  - vm_compute. reflexivity.
  - apply (toy_encrypt_envelope a256 9). eexists. vm_compute. reflexivity.
Defined.

Lemma untagged_plaintext_rejected_witness :
  fst (createDecryptedMessage (SSL := toy) (toy_envelope secret 9)
         (len (toy_envelope secret 9)) toy_priv (toy_world 0))
  = Throw (runtime_error "Failed to decrypt message").
Proof.
  apply (untagged_plaintext_rejected (SSL := toy) secret toy_pub toy_priv
           (toy_world 9) (snd (toy_encrypt secret 9))).
  - exact toy_fresh_keypair.
  - vm_compute. split; [discriminate|reflexivity].
  - vm_compute. discriminate.
  - apply (toy_encrypt_envelope secret 9). eexists. vm_compute. reflexivity.
  - vm_compute. discriminate.
Defined.

Lemma unparsable_private_key_rejected_witness :
  createDecryptedMessage (SSL := toy) (toy_envelope secret 9)
    (len (toy_envelope secret 9)) "not a key" (toy_world 0)
  = (Throw (runtime_error "Failed to create RSA"),
     World (SSL := toy) 0%nat
       [call_BIO_new_mem_buf; call_PEM_read_bio_RSAPrivateKey])
  /\ runtime_error "Failed to create RSA"
     <> runtime_error "Failed to decrypt message".
Proof.
  apply (unparsable_private_key_rejected (SSL := toy)
           (toy_envelope secret 9) "not a key" (toy_world 0)).
  - vm_compute. reflexivity.
  - vm_compute. reflexivity.
Defined.

Lemma decrypted_only_if_well_formed_witness :
  let buf := toy_envelope (MSG_RECOGNIZE_TAG ++ hello_world) 9 in
  exists k d,
    take 8 buf = ENCR_MARKER
    /\ PEM_read_bio_RSAPrivateKey (OpenSSL := toy) toy_priv = Some k
    /\ RSA_private_decrypt (OpenSSL := toy)
         (take (Z.to_nat (RSA_size k)) (drop 8 buf)) k = Some d
    /\ len d = 32
    /\ 8 + RSA_size k + 16 < len buf
    /\ (len buf - 8 - RSA_size k - 16) mod 16 = 0
    /\ let iv := take 16 (drop (Z.to_nat (RSA_size k)) (drop 8 buf)) in
       let c := drop 16 (drop (Z.to_nat (RSA_size k)) (drop 8 buf)) in
       fst (decryptedBuffer (SSL := toy) c (len c) d iv
              (after_key_recovery (toy_world 0)))
       = Ret (MSG_RECOGNIZE_TAG ++ hello_world).
Proof.
  intros buf.
  apply (decrypted_only_if_well_formed (SSL := toy) buf toy_priv
           (toy_world 0) hello_world).
  - vm_compute. discriminate.
  - vm_compute. reflexivity.
Defined.

Lemma generateKeysPair_succeeds_witness :
  exists w', generateKeysPair (SSL := toy) (toy_world 1)
             = (Ret (true, toy_pub, toy_priv), w').
Proof.
  apply (generateKeysPair_succeeds (SSL := toy) (toy_world 1)).
  exists toy_key, 2%nat. repeat split; reflexivity.
Defined.

Lemma generateKeysPair_fails_witness :
  fst (generateKeysPair (SSL := starved) (starved_world 100)) = Undefined.
Proof.
  apply (proj1 (generateKeysPair_fails (SSL := starved) (starved_world 100))
           100%nat); reflexivity.
Defined.

Lemma makebet_reward_mult_ratio_witness :
  makebet_mask (fun n => n) (fun m => m + 1) (fun _ => ""%string) 5 (Some 8)
  = Ret 7
  /\ makebet_mask (fun n => n) (fun m => m + 1) (fun _ => ""%string) 5
       (Some 12)
     = Throw (runtime_error "reward_mult_ratio must be power of 2").
Proof.
  split.
  - apply (makebet_reward_mult_ratio (fun n => n) (fun m => m + 1)
             (fun _ => ""%string) 5 8).
    + split; [discriminate|reflexivity].
    + exists 3. split; [lia|reflexivity].
    + discriminate.
  - apply (makebet_reward_mult_ratio (fun n => n) (fun m => m + 1)
             (fun _ => ""%string) 5 12).
    + split; [discriminate|reflexivity].
    + intros (k & Hk & E).
      assert (Hcases : k = 0 \/ k = 1 \/ k = 2 \/ k = 3 \/ 4 <= k) by lia.
      destruct Hcases as [->|[->|[->|[->|H4]]]]; try discriminate.
      assert (2 ^ 4 <= 2 ^ k) by (apply Z.pow_le_mono_r; lia). lia.
Defined.

